(** * Timer1 driver (MiniTimerOne) and cooperative task scheduler

  A shallow embedding of [Progetto-01/led_to_bag/MiniTimerOne.cpp] and of
  [Progetto-03/src/sd-controller/smart_dumpster/Scheduler.{h,cpp}], with the
  properties of the prescaler search, of the interrupt mask handling and of
  the task table stated and proved over it.

  The target is an ATmega328P compiled with avr-gcc: [int] is 16 bits wide,
  [unsigned long] is 32 bits wide, the I/O registers TCCR1A, TCCR1B and
  TIMSK1 are 8 bits wide, TCNT1 and OCR1A are 16 bits wide. *)

From Stdlib Require Import ZArith Lia Bool.
From stdpp Require Import base option list gmap.

Local Open Scope Z_scope.

(** ** The microcontroller: registers, interrupt flag, bus trace *)
Module AVR.

(** Values of C's unsigned types: a store wraps modulo the width. *)
Definition u8 (v : Z) : Z := v mod 2 ^ 8.
Definition u16 (v : Z) : Z := v mod 2 ^ 16.
Definition u32 (v : Z) : Z := v mod 2 ^ 32.

(** [_BV(bit)] of avr-libc's <avr/sfr_defs.h>: [(1 << (bit))]. *)
Definition _BV (bit : Z) : Z := Z.shiftl 1 bit.

(** Bit positions of the ATmega328P (avr-libc's <avr/iom328p.h>). *)
Definition CS10 : Z := 0.
Definition CS11 : Z := 1.
Definition CS12 : Z := 2.
Definition WGM12 : Z := 3.
Definition OCIE1A : Z := 1.

(** The timer-1 registers the driver touches. *)
Inductive ioreg : Set := IO_TCCR1A | IO_TCCR1B | IO_TIMSK1 | IO_TCNT1 | IO_OCR1A.

(** TCNT1 and OCR1A are register pairs: the CPU moves them one byte at a
    time, so an access to them is not atomic. *)
Definition is_wide (r : ioreg) : bool :=
  match r with
  | IO_TCNT1 | IO_OCR1A => true
  | IO_TCCR1A | IO_TCCR1B | IO_TIMSK1 => false
  end.

Definition fit (r : ioreg) (v : Z) : Z := if is_wide r then u16 v else u8 v.

(** What the CPU did that an interrupt handler could observe, oldest first. *)
Inductive event : Set :=
| Cli
| Sei
| Write (r : ioreg) (v : Z).

Record mcu : Set := Mcu {
  SREG_I : bool;        (* global interrupt enable, the I bit of SREG *)
  TCCR1A : Z;
  TCCR1B : Z;
  TIMSK1 : Z;
  TCNT1 : Z;
  OCR1A : Z;
  trace : list event
}.

Definition load (r : ioreg) (m : mcu) : Z :=
  match r with
  | IO_TCCR1A => TCCR1A m
  | IO_TCCR1B => TCCR1B m
  | IO_TIMSK1 => TIMSK1 m
  | IO_TCNT1 => TCNT1 m
  | IO_OCR1A => OCR1A m
  end.

Definition emit (e : event) (m : mcu) : mcu :=
  Mcu (SREG_I m) (TCCR1A m) (TCCR1B m) (TIMSK1 m) (TCNT1 m) (OCR1A m) (trace m ++ [e]).

Definition poke (r : ioreg) (v : Z) (m : mcu) : mcu :=
  match r with
  | IO_TCCR1A => Mcu (SREG_I m) v (TCCR1B m) (TIMSK1 m) (TCNT1 m) (OCR1A m) (trace m)
  | IO_TCCR1B => Mcu (SREG_I m) (TCCR1A m) v (TIMSK1 m) (TCNT1 m) (OCR1A m) (trace m)
  | IO_TIMSK1 => Mcu (SREG_I m) (TCCR1A m) (TCCR1B m) v (TCNT1 m) (OCR1A m) (trace m)
  | IO_TCNT1 => Mcu (SREG_I m) (TCCR1A m) (TCCR1B m) (TIMSK1 m) v (OCR1A m) (trace m)
  | IO_OCR1A => Mcu (SREG_I m) (TCCR1A m) (TCCR1B m) (TIMSK1 m) (TCNT1 m) v (trace m)
  end.

(** An assignment to a register: the value is cut to the register's width. *)
Definition store (r : ioreg) (v : Z) (m : mcu) : mcu :=
  emit (Write r (fit r v)) (poke r (fit r v) m).

Definition set_I (b : bool) (m : mcu) : mcu :=
  Mcu b (TCCR1A m) (TCCR1B m) (TIMSK1 m) (TCNT1 m) (OCR1A m) (trace m).

(** [cli()] clears the I bit, [sei()] sets it; neither looks at its old value. *)
Definition do_cli (m : mcu) : mcu := emit Cli (set_I false m).
Definition do_sei (m : mcu) : mcu := emit Sei (set_I true m).

(** Replaying a trace from a given I bit: the I bit at its end, and whether
    every write to a register pair happened while the I bit was clear. *)
Fixpoint flag_after (ie : bool) (t : list event) : bool :=
  match t with
  | [] => ie
  | Cli :: t' => flag_after false t'
  | Sei :: t' => flag_after true t'
  | Write _ _ :: t' => flag_after ie t'
  end.

Fixpoint wide_writes_masked (ie : bool) (t : list event) : bool :=
  match t with
  | [] => true
  | Cli :: t' => wide_writes_masked false t'
  | Sei :: t' => wide_writes_masked true t'
  | Write r _ :: t' => (if is_wide r then negb ie else true) && wide_writes_masked ie t'
  end.

(** Two states of the microcontroller that differ at most in their trace. *)
Definition same_registers (m1 m2 : mcu) : Prop :=
  SREG_I m1 = SREG_I m2 /\ TCCR1A m1 = TCCR1A m2 /\ TCCR1B m1 = TCCR1B m2 /\
  TIMSK1 m1 = TIMSK1 m2 /\ TCNT1 m1 = TCNT1 m2 /\ OCR1A m1 = OCR1A m2.

End AVR.

(** ** MiniTimerOne.cpp *)
Module MiniTimer.
Import AVR.

Definition TIMER1_MAX_VALUE : Z := 65536.
Definition CYCLES_PER_MICROSEC : Z := 16.

(** A pointer to a function taking and returning nothing: the address of
    [emptyCallback], or of another function. *)
Inductive fnptr : Set :=
| emptyCallback
| fn (address : N).

(** A [MiniTimerOne *]. *)
Inductive objptr : Set :=
| nullptr
| obj (address : N).

(** The object's data members (declared in MiniTimerOne.h; the values ever
    assigned to [_clockSelectBits] are 0..5, which every integer type holds). *)
Record MiniTimerOne : Set := Object {
  _clockSelectBits : Z;
  _isrCallback : fnptr
}.

(** What a member function can reach: its object, the class's static
    member, and the microcontroller. *)
Record machine : Set := Machine {
  self : MiniTimerOne;
  SINGLETON : objptr;
  hw : mcu
}.

(** Member functions are state transformers over [machine]. *)
Definition M (A : Type) : Type := machine -> A * machine.

#[export] Instance M_ret : MRet M := fun A (a : A) s => (a, s).
#[export] Instance M_bind : MBind M :=
  fun A B (k : A -> M B) (c : M A) s => let (a, s') := c s in k a s'.

Definition run {A} (c : M A) (s : machine) : machine := (c s).2.
Definition result {A} (c : M A) (s : machine) : A := (c s).1.

Definition on_hw (f : mcu -> mcu) : M unit :=
  fun s => (tt, Machine (self s) (SINGLETON s) (f (hw s))).
Definition cli : M unit := on_hw do_cli.
Definition sei : M unit := on_hw do_sei.
Definition out (r : ioreg) (v : Z) : M unit := on_hw (store r v).
Definition inp (r : ioreg) : M Z := fun s => (load r (hw s), s).

Definition set_clockSelectBits (v : Z) : M unit :=
  fun s => (tt, Machine (Object v (_isrCallback (self s))) (SINGLETON s) (hw s)).
Definition set_isrCallback (f : fnptr) : M unit :=
  fun s => (tt, Machine (Object (_clockSelectBits (self s)) f) (SINGLETON s) (hw s)).
Definition get_clockSelectBits : M Z := fun s => (_clockSelectBits (self s), s).

(** [MiniTimerOne *MiniTimerOne::SINGLETON {};] value-initialises the
    pointer, which for a pointer is the null pointer. *)
Definition SINGLETON_initializer : objptr := nullptr.

Definition getInstance : M objptr := fun s => (SINGLETON s, s).

(** The default constructor. *)
Definition MiniTimerOne_ctor : MiniTimerOne := Object 0 emptyCallback.

Definition init : M unit :=
  out IO_TCCR1B (_BV WGM12);;
  out IO_TCCR1A 0;;
  out IO_TIMSK1 0;;
  cli;;
  out IO_TCNT1 0;;
  sei.

Definition prescalerValues : list Z := [1; 8; 64; 256; 1024].
Definition csBitsValues : list Z :=
  [_BV CS10; _BV CS11; Z.lor (_BV CS11) (_BV CS10); _BV CS12; Z.lor (_BV CS12) (_BV CS10)].

(** The product [CYCLES_PER_MICROSEC * period], an [unsigned long]. *)
Definition cycles_of (period : Z) : Z := u32 (CYCLES_PER_MICROSEC * period).

(** The right-hand side of the loop's comparison at index [i], an
    [unsigned long] product too. *)
Definition bound (i : nat) : Z := u32 (TIMER1_MAX_VALUE * nth i prescalerValues 0).

(** The body of the [if] inside the loop of [setPeriod], at index [i]. *)
Definition setPeriod_hit (i : nat) (cycles : Z) : M unit :=
  set_clockSelectBits (nth i csBitsValues 0);;
  cli;;
  out IO_OCR1A (cycles / nth i prescalerValues 0);;
  sei.

(** [for (int i = 0; i < 5 && !timerSet; i++)], entered at index [i] with
    [left = 5 - i] indices still to visit. *)
Fixpoint setPeriod_for (left i : nat) (cycles : Z) (timerSet : bool) : M bool :=
  match left with
  | O => mret timerSet
  | S left' =>
      if timerSet then mret timerSet
      else if cycles <? bound i
           then setPeriod_hit i cycles;; setPeriod_for left' (S i) cycles true
           else setPeriod_for left' (S i) cycles false
  end.

(** The body of the final [if (!timerSet)]. *)
Definition setPeriod_clamp : M unit :=
  set_clockSelectBits (Z.lor (_BV CS12) (_BV CS10));;
  cli;;
  out IO_OCR1A (TIMER1_MAX_VALUE - 1);;
  sei.

(** [period] is an [unsigned long]. *)
Definition setPeriod (period : Z) : M unit :=
  let cycles := cycles_of period in
  timerSet ← setPeriod_for 5 0 cycles false;
  if negb timerSet then setPeriod_clamp else mret tt.

Definition attachInterrupt (isr : fnptr) : M unit :=
  set_isrCallback isr;;
  v ← inp IO_TIMSK1;
  out IO_TIMSK1 (Z.lor v (_BV OCIE1A)).

Definition detachInterrupt : M unit :=
  out IO_TIMSK1 0;;
  set_isrCallback emptyCallback.

Definition start : M unit :=
  v ← inp IO_TCCR1B;
  cs ← get_clockSelectBits;
  out IO_TCCR1B (Z.lor v cs).

Definition stop : M unit := out IO_TCCR1B (_BV WGM12).

Definition reset : M unit :=
  cli;;
  out IO_TCNT1 0;;
  sei.

Definition getCallback : M fnptr := fun s => (_isrCallback (self s), s).

(** The machine right after reset of the chip, with a freshly constructed
    timer object: interrupts disabled, registers zero. *)
Definition power_on : machine :=
  Machine MiniTimerOne_ctor SINGLETON_initializer (Mcu false 0 0 0 0 0 []).

(** Reading through a [MiniTimerOne *]: defined only for a pointer to a
    live object. *)
Definition deref (heap : gmap N MiniTimerOne) (p : objptr) : option MiniTimerOne :=
  match p with
  | nullptr => None
  | obj a => heap !! a
  end.

(** [MiniTimerOne MiniTimer1 = *MiniTimerOne::getInstance();] run on the
    statics as they are when the initialiser runs. *)
Definition MiniTimer1_initializer (heap : gmap N MiniTimerOne) (s : machine) : option MiniTimerOne :=
  deref heap (result getInstance s).

(** [ISR(TIMER1_COMPA_vect)]: the function it calls, read from [MiniTimer1]. *)
Definition ISR_TIMER1_COMPA (MiniTimer1 : option MiniTimerOne) (s : machine) : option fnptr :=
  o ← MiniTimer1;
  Some (result getCallback (Machine o (SINGLETON s) (hw s))).

(** A call of one of the class's functions. *)
Inductive call : Set :=
| call_getInstance
| call_init
| call_setPeriod (period : Z)
| call_attachInterrupt (isr : fnptr)
| call_detachInterrupt
| call_start
| call_stop
| call_reset
| call_getCallback.

Definition exec (c : call) : machine -> machine :=
  match c with
  | call_getInstance => run getInstance
  | call_init => run init
  | call_setPeriod p => run (setPeriod p)
  | call_attachInterrupt f => run (attachInterrupt f)
  | call_detachInterrupt => run detachInterrupt
  | call_start => run start
  | call_stop => run stop
  | call_reset => run reset
  | call_getCallback => run getCallback
  end.

Definition exec_all (cs : list call) (s : machine) : machine :=
  foldl (fun s c => exec c s) s cs.

(** The prescaler that a value of [_clockSelectBits] selects, read off the
    two parallel tables of [setPeriod] (0 when the value is in neither). *)
Definition prescaler_of (cs : Z) : Z :=
  default 0 (i ← fst <$> list_find (fun b => b = cs) csBitsValues; prescalerValues !! i).

(** The number of CPU cycles the stored configuration stands for: the
    compare value times the prescaler. *)
Definition programmed_cycles (s : machine) : Z :=
  OCR1A (hw s) * prescaler_of (_clockSelectBits (self s)).

(** The calls that assign [_isrCallback]. *)
Definition assigns_callback (c : call) : bool :=
  match c with
  | call_attachInterrupt _ | call_detachInterrupt => true
  | _ => false
  end.

(** The timer is in CTC mode with only the three clock-select bits free:
    TCCR1A = 0 and TCCR1B = _BV(WGM12) | c for some c in 0..7. *)
Definition ctc_mode (m : mcu) : Prop :=
  TCCR1A m = 0 /\ exists c, 0 <= c <= 7 /\ TCCR1B m = Z.lor (_BV WGM12) c.

(** What the driver keeps true from [init] on: CTC mode, at most the
    compare-match-A interrupt enabled, clock-select bits within three bits. *)
Definition driver_inv (s : machine) : Prop :=
  ctc_mode (hw s) /\
  (TIMSK1 (hw s) = 0 \/ TIMSK1 (hw s) = _BV OCIE1A) /\
  0 <= _clockSelectBits (self s) <= 7.

End MiniTimer.

(** ** Scheduler.h, Scheduler.cpp *)
Module Sched.

Definition MAX_TASKS : Z := 10.

(** A [Task *] and a [Timer *]. *)
Definition Taskptr : Set := N.
Definition Timerptr : Set := N.

(** [Task] and [Timer] are declared in Task.h and Timer.h and implemented by
    the application; the scheduler only calls them. [World] is the memory
    those objects live in. The scheduler's data members are private, so
    these calls leave them alone. *)
Class Collaborators (World : Type) : Type := {
  Timer_new : World -> Timerptr * World;
  Timer_setupPeriod : Timerptr -> Z -> World -> World;
  Timer_waitForNextTick : Timerptr -> World -> World;
  Task_updateAndCheckTime : Taskptr -> Z -> World -> bool * World;
  Task_tick : Taskptr -> World -> World
}.

Record Scheduler : Set := Build {
  basePeriod : Z;
  nTasks : Z;
  taskList : list Taskptr;     (* Task* taskList[MAX_TASKS] *)
  timer : Timerptr
}.

(** The calls the scheduler makes on its collaborators, oldest first. *)
Inductive action : Set :=
| WaitForNextTick
| UpdateAndCheckTime (task : Taskptr) (basePeriod : Z) (due : bool)
| Tick (task : Taskptr).

Record env (World : Type) : Type := Env {
  world : World;
  calls : list action
}.
Arguments Env {World} _ _.
Arguments world {World} _.
Arguments calls {World} _.

(** [a[i] = v] on a C array: defined only inside the array. *)
Definition array_store {A} (a : list A) (i : Z) (v : A) : option (list A) :=
  if (0 <=? i) && (i <? Z.of_nat (length a)) then Some (<[Z.to_nat i := v]> a) else None.

(** The table entries in use: [taskList[0 .. nTasks-1]]. *)
Definition registered (s : Scheduler) : list Taskptr :=
  take (Z.to_nat (nTasks s)) (taskList s).

(** The representation a scheduler has once [init] has run on an object
    whose table has [MAX_TASKS] slots. *)
Definition wf (s : Scheduler) : Prop :=
  Z.of_nat (length (taskList s)) = MAX_TASKS /\ 0 <= nTasks s <= MAX_TASKS - 1.

Definition addTask (task : Taskptr) (s : Scheduler) : option (bool * Scheduler) :=
  if nTasks s <? MAX_TASKS - 1 then
    tl ← array_store (taskList s) (nTasks s) task;
    Some (true, Build (basePeriod s) (nTasks s + 1) tl (timer s))
  else Some (false, s).

Section WithCollaborators.
Context {World : Type} `{Collaborators World}.

Definition init (bp : Z) (s : Scheduler) (w : World) : Scheduler * World :=
  let (t, w1) := Timer_new w in
  let w2 := Timer_setupPeriod t bp w1 in
  (Build bp 0 (taskList s) t, w2).

(** The body of the loop of [schedule] at index [i]. *)
Definition schedule_body (s : Scheduler) (i : nat) (e : env World) : option (env World) :=
  task ← taskList s !! i;
  let (due, w1) := Task_updateAndCheckTime task (basePeriod s) (world e) in
  let e1 := Env w1 (calls e ++ [UpdateAndCheckTime task (basePeriod s) due]) in
  if due then Some (Env (Task_tick task w1) (calls e1 ++ [Tick task])) else Some e1.

(** [for (int i = 0; i < nTasks; i++)], entered at index [i] with
    [left = nTasks - i] indices still to visit. *)
Fixpoint schedule_for (left i : nat) (s : Scheduler) (e : env World) : option (env World) :=
  match left with
  | O => Some e
  | S left' => e' ← schedule_body s i e; schedule_for left' (S i) s e'
  end.

Definition schedule (s : Scheduler) (e : env World) : option (env World) :=
  let e0 := Env (Timer_waitForNextTick (timer s) (world e)) (calls e ++ [WaitForNextTick]) in
  schedule_for (Z.to_nat (nTasks s)) 0 s e0.

(** One pass over a sequence of tasks, as a relation between the world
    before, the calls made and the world after: each task in turn is asked
    whether it is due, and a task that is due is ticked before the next task
    is asked. *)
Inductive pass (bp : Z) : list Taskptr -> World -> list action -> World -> Prop :=
| pass_end w : pass bp [] w [] w
| pass_due task rest w w1 acts w2 :
    Task_updateAndCheckTime task bp w = (true, w1) ->
    pass bp rest (Task_tick task w1) acts w2 ->
    pass bp (task :: rest) w (UpdateAndCheckTime task bp true :: Tick task :: acts) w2
| pass_idle task rest w w1 acts w2 :
    Task_updateAndCheckTime task bp w = (false, w1) ->
    pass bp rest w1 acts w2 ->
    pass bp (task :: rest) w (UpdateAndCheckTime task bp false :: acts) w2.

End WithCollaborators.

(** The tasks asked whether they are due, in the order of the calls. *)
Definition asked (acts : list action) : list Taskptr :=
  omap (fun a => match a with UpdateAndCheckTime t _ _ => Some t | _ => None end) acts.

(** Modelled from the spec: Task.h and Timer.h are not among the sources. A
    task accumulates the base period at every pass and is due, and reloads,
    when the accumulated time has reached its own period (section 4.2). The
    world maps a task's address to its period and its accumulated time. *)
Definition periodic_update (t : Taskptr) (bp : Z) (w : gmap N (Z * Z)) : bool * gmap N (Z * Z) :=
  match w !! t with
  | Some (period, elapsed) =>
      if period <=? elapsed + bp then (true, <[t := (period, 0)]> w)
      else (false, <[t := (period, elapsed + bp)]> w)
  | None => (false, w)
  end.

Definition periodic_tasks : Collaborators (gmap N (Z * Z)) := {|
  Timer_new := fun w => (0%N, w);
  Timer_setupPeriod := fun _ _ w => w;
  Timer_waitForNextTick := fun _ w => w;
  Task_updateAndCheckTime := periodic_update;
  Task_tick := fun _ w => w
|}.

(** What an application's [setup()] does with a list of tasks: one
    [addTask] per task, in order, collecting the results. *)
Fixpoint addTasks (tasks : list Taskptr) (s : Scheduler) : option (list bool * Scheduler) :=
  match tasks with
  | [] => Some ([], s)
  | task :: rest =>
      r ← addTask task s;
      r' ← addTasks rest r.2;
      Some (r.1 :: r'.1, r'.2)
  end.

(** What an application's [loop()] does [n] times over: [schedule()]. *)
Fixpoint schedule_n {World : Type} `{Collaborators World}
    (n : nat) (s : Scheduler) (e : env World) : option (env World) :=
  match n with
  | O => Some e
  | S n' => e' ← schedule s e; schedule_n n' s e'
  end.

(** The tasks ticked, in the order of the calls, and the number of waits. *)
Definition ticked (acts : list action) : list Taskptr :=
  omap (fun a => match a with Tick t => Some t | _ => None end) acts.

(** The tasks that answered that they are due, in the order of the calls. *)
Definition answered_due (acts : list action) : list Taskptr :=
  omap (fun a => match a with UpdateAndCheckTime t _ true => Some t | _ => None end) acts.

Definition waits (acts : list action) : nat :=
  length (omap (fun a => match a with WaitForNextTick => Some tt | _ => None end) acts).

(** A scheduler with base period 1000 holding the tasks 11 and 12, and a
    world in which task 11 has period 1000 and task 12 period 3000. *)
Definition two_tasks : Scheduler := Build 1000 2 [11; 12; 0; 0; 0; 0; 0; 0; 0; 0]%N 0%N.
Definition two_tasks_world : env (gmap N (Z * Z)) :=
  Env {[ 11%N := (1000, 0); 12%N := (3000, 0) ]} [].

End Sched.

(** * Properties of the timer driver *)
Section TimerFacts.
Import AVR MiniTimer.

Lemma run_bind {A B} (c : M A) (k : A -> M B) (s : machine) :
  run (c ≫= k) s = run (k (result c s)) (run c s).
Proof. unfold run, result, mbind, M_bind. destruct (c s) as [a s']. reflexivity. Qed.

Lemma bound_values :
  bound 0 = 65536 /\ bound 1 = 524288 /\ bound 2 = 4194304 /\
  bound 3 = 16777216 /\ bound 4 = 67108864.
Proof. repeat split; vm_compute; reflexivity. Qed.

Lemma cycles_of_range (period : Z) : 0 <= cycles_of period < 2 ^ 32.
Proof. unfold cycles_of, u32. apply Z.mod_pos_bound. lia. Qed.

Lemma cycles_of_exact (period : Z) :
  0 <= period -> 16 * period < 2 ^ 32 -> cycles_of period = 16 * period.
Proof.
  intros Hlo Hhi. unfold cycles_of, u32, CYCLES_PER_MICROSEC.
  apply Z.mod_small. lia.
Qed.

(** Once [timerSet] holds the loop does nothing more. *)
Lemma setPeriod_for_set (left i : nat) (cycles : Z) (s : machine) :
  setPeriod_for left i cycles true s = (true, s).
Proof. destruct left; reflexivity. Qed.

(** No index from [i] on passes the test: the loop falls through. *)
Lemma setPeriod_for_miss (left : nat) : forall (i : nat) (cycles : Z) (s : machine),
  (forall j, (i <= j < i + left)%nat -> bound j <= cycles) ->
  setPeriod_for left i cycles false s = (false, s).
Proof.
  induction left as [|left IH]; intros i cycles s Hmiss; [reflexivity|].
  cbn [setPeriod_for].
  assert (Hi : bound i <= cycles) by (apply Hmiss; lia).
  apply Z.ltb_ge in Hi. rewrite Hi.
  apply IH. intros j Hj. apply Hmiss. lia.
Qed.

(** The first index [k] from [i] on that passes the test is the one whose
    body runs, and it is the only one. *)
Lemma setPeriod_for_first (left : nat) : forall (i k : nat) (cycles : Z) (s : machine),
  (i <= k < i + left)%nat ->
  (forall j, (i <= j < k)%nat -> bound j <= cycles) ->
  cycles < bound k ->
  setPeriod_for left i cycles false s = (true, run (setPeriod_hit k cycles) s).
Proof.
  induction left as [|left IH]; intros i k cycles s Hk Hbefore Hhit; [lia|].
  cbn [setPeriod_for].
  destruct (decide (i = k)) as [->|Hne].
  - apply Z.ltb_lt in Hhit. rewrite Hhit.
    unfold mbind, M_bind, run.
    destruct (setPeriod_hit k cycles s) as [[] s'].
    apply setPeriod_for_set.
  - assert (Hi : bound i <= cycles) by (apply Hbefore; lia).
    apply Z.ltb_ge in Hi. rewrite Hi.
    apply IH; [lia| |assumption].
    intros j Hj. apply Hbefore. lia.
Qed.

Lemma setPeriod_first (period : Z) (k : nat) (s : machine) :
  (k < 5)%nat ->
  (forall j, (j < k)%nat -> bound j <= cycles_of period) ->
  cycles_of period < bound k ->
  setPeriod period s = (tt, run (setPeriod_hit k (cycles_of period)) s).
Proof.
  intros Hk Hbefore Hhit. unfold setPeriod.
  unfold mbind, M_bind.
  rewrite (setPeriod_for_first 5 0 k) by (try assumption; try lia; intros; apply Hbefore; lia).
  reflexivity.
Qed.

Lemma setPeriod_none (period : Z) (s : machine) :
  bound 4 <= cycles_of period ->
  setPeriod period s = (tt, run setPeriod_clamp s).
Proof.
  intros Hmiss. unfold setPeriod.
  unfold mbind, M_bind.
  rewrite setPeriod_for_miss.
  - cbn [negb]. unfold run. destruct (setPeriod_clamp s) as [[] s']. reflexivity.
  - intros j Hj. destruct bound_values as (B0 & B1 & B2 & B3 & B4).
    rewrite B4 in Hmiss.
    destruct j as [|[|[|[|[|j]]]]]; [rewrite B0|rewrite B1|rewrite B2|rewrite B3|rewrite B4|]; lia.
Qed.

(** Every call of [setPeriod] ends in one of the loop's five bodies or in
    the final clamp. *)
Lemma setPeriod_cases (period : Z) (s : machine) :
  (exists k, (k < 5)%nat /\
     (forall j, (j < k)%nat -> bound j <= cycles_of period) /\
     cycles_of period < bound k /\
     setPeriod period s = (tt, run (setPeriod_hit k (cycles_of period)) s)) \/
  (bound 4 <= cycles_of period /\ setPeriod period s = (tt, run setPeriod_clamp s)).
Proof.
  destruct bound_values as (B0 & B1 & B2 & B3 & B4).
  assert (Hsplit : cycles_of period < bound 0 \/
                   bound 0 <= cycles_of period < bound 1 \/
                   bound 1 <= cycles_of period < bound 2 \/
                   bound 2 <= cycles_of period < bound 3 \/
                   bound 3 <= cycles_of period < bound 4 \/
                   bound 4 <= cycles_of period) by lia.
  assert (Hgo : forall k, (k < 5)%nat ->
            (forall j, (j < k)%nat -> bound j <= cycles_of period) ->
            cycles_of period < bound k ->
            exists k, (k < 5)%nat /\
              (forall j, (j < k)%nat -> bound j <= cycles_of period) /\
              cycles_of period < bound k /\
              setPeriod period s = (tt, run (setPeriod_hit k (cycles_of period)) s)).
  { intros k Hk Hb Hh. exists k. repeat split; try assumption.
    apply setPeriod_first; assumption. }
  destruct Hsplit as [H0|[H1|[H2|[H3|[H4|H5]]]]].
  - left. apply (Hgo 0%nat); [lia| |lia]. intros j Hj. lia.
  - left. apply (Hgo 1%nat); [lia| |lia].
    intros j Hj. destruct j as [|j]; [lia|lia].
  - left. apply (Hgo 2%nat); [lia| |lia].
    intros j Hj. destruct j as [|[|j]]; lia.
  - left. apply (Hgo 3%nat); [lia| |lia].
    intros j Hj. destruct j as [|[|[|j]]]; lia.
  - left. apply (Hgo 4%nat); [lia| |lia].
    intros j Hj. destruct j as [|[|[|[|j]]]]; lia.
  - right. split; [assumption|]. apply setPeriod_none. assumption.
Qed.

End TimerFacts.

(** * The prescaler search of [setPeriod] *)
Section PrescalerSearch.
Import AVR MiniTimer.

Lemma hit_self (k : nat) (cycles : Z) (s : machine) :
  self (run (setPeriod_hit k cycles) s) =
  Object (nth k csBitsValues 0) (_isrCallback (self s)).
Proof. reflexivity. Qed.

Lemma hit_hw (k : nat) (cycles : Z) (s : machine) :
  hw (run (setPeriod_hit k cycles) s) =
  do_sei (store IO_OCR1A (cycles / nth k prescalerValues 0) (do_cli (hw s))).
Proof. reflexivity. Qed.

Lemma clamp_self (s : machine) :
  self (run setPeriod_clamp s) =
  Object (Z.lor (_BV CS12) (_BV CS10)) (_isrCallback (self s)).
Proof. reflexivity. Qed.

Lemma clamp_hw (s : machine) :
  hw (run setPeriod_clamp s) =
  do_sei (store IO_OCR1A (TIMER1_MAX_VALUE - 1) (do_cli (hw s))).
Proof. reflexivity. Qed.

Lemma OCR1A_after_store (v : Z) (m : mcu) :
  OCR1A (do_sei (store IO_OCR1A v (do_cli m))) = u16 v.
Proof. reflexivity. Qed.

Lemma u16_small (v : Z) : 0 <= v < 65536 -> u16 v = v.
Proof. intros Hv. unfold u16. apply Z.mod_small. lia. Qed.


(** The quotient written to OCR1A by the loop body fits the register. *)
Lemma quotient_fits (c p : Z) : 0 < p -> 0 <= c < 65536 * p -> 0 <= c / p < 65536.
Proof.
  intros Hp Hc. split.
  - apply Z.div_pos; lia.
  - apply Z.div_lt_upper_bound; lia.
Qed.



End PrescalerSearch.

(** * Large periods: the clamp and the 32-bit product *)
Section LargePeriods.
Import AVR MiniTimer.

(** As long as the product P * 16 itself fits 32 bits, a period too long for
    the prescaler 1024 is clamped: OCR1A = 65535 with the clock-select bits
    of 1024. *)
Lemma setPeriod_clamps_below_wrap (P : Z) (s : machine) :
  0 <= P ->
  TIMER1_MAX_VALUE * 1024 <= P * CYCLES_PER_MICROSEC < 2 ^ 32 ->
  OCR1A (hw (run (setPeriod P) s)) = TIMER1_MAX_VALUE - 1 /\
  csBitsValues !! 4%nat = Some (_clockSelectBits (self (run (setPeriod P) s))) /\
  prescalerValues !! 4%nat = Some 1024.
Proof.
  unfold CYCLES_PER_MICROSEC, TIMER1_MAX_VALUE. intros HP Hbig.
  assert (Hc : cycles_of P = 16 * P) by (apply cycles_of_exact; lia).
  destruct bound_values as (_ & _ & _ & _ & B4).
  unfold run. rewrite setPeriod_none by (rewrite B4, Hc; lia).
  cbn [snd]. rewrite clamp_self, clamp_hw, OCR1A_after_store.
  repeat split.
Qed.

(** C2, at the period 268435456 = 2^28 microseconds: P * 16 = 2^32 is far
    above 65536 * 1024, yet the 32-bit product is 0, the loop stops at
    prescaler 1 and OCR1A receives 0 instead of 65535. *)
Theorem setPeriod_no_clamp_at_2_28 :
  TIMER1_MAX_VALUE * 1024 <= 268435456 * CYCLES_PER_MICROSEC /\
  cycles_of 268435456 = 0 /\
  OCR1A (hw (run (setPeriod 268435456) power_on)) = 0 /\
  _clockSelectBits (self (run (setPeriod 268435456) power_on)) = _BV CS10 /\
  OCR1A (hw (run (setPeriod 268435456) power_on)) <> TIMER1_MAX_VALUE - 1 /\
  _clockSelectBits (self (run (setPeriod 268435456) power_on)) <> Z.lor (_BV CS12) (_BV CS10).
Proof. vm_compute. repeat split; congruence. Qed.

(** C3 as stated fails: with P * 16 = 65536 = counterMax * 1 the clock-select
    bits recorded are not those of prescaler 1. *)
Lemma setPeriod_boundary_not_prescaler_1 :
  4096 * CYCLES_PER_MICROSEC = TIMER1_MAX_VALUE * 1 /\
  csBitsValues !! 0%nat <> Some (_clockSelectBits (self (run (setPeriod 4096) power_on))).
Proof. vm_compute. split; congruence. Qed.

(** C3, amended. With P * 16 = 65536 = counterMax * 1 the strict test
    [cycles < 65536 * 1] fails at prescaler 1, so [setPeriod] goes on to
    prescaler 8: it records the bits of prescaler 8 and sets OCR1A to
    65536 / 8 = 8192. Prescaler 1 is what [setPeriod] selects for every
    period whose cycle count P * 16 is at most 65535 = counterMax * 1 - 1:
    it then records the bits of prescaler 1 and sets OCR1A to P * 16. *)
Theorem setPeriod_boundary_prescaler_8 (s : machine) :
  cycles_of 4096 = TIMER1_MAX_VALUE * 1 /\
  (cycles_of 4096 <? bound 0) = false /\
  (cycles_of 4096 <? bound 1) = true /\
  prescalerValues !! 1%nat = Some 8 /\
  csBitsValues !! 1%nat = Some (_clockSelectBits (self (run (setPeriod 4096) s))) /\
  OCR1A (hw (run (setPeriod 4096) s)) = 8192 /\
  (forall P,
     0 <= P ->
     P * CYCLES_PER_MICROSEC <= TIMER1_MAX_VALUE * 1 - 1 ->
     prescalerValues !! 0%nat = Some 1 /\
     csBitsValues !! 0%nat = Some (_clockSelectBits (self (run (setPeriod P) s))) /\
     OCR1A (hw (run (setPeriod P) s)) = P * CYCLES_PER_MICROSEC).
Proof.
  assert (Hrun : setPeriod 4096 s = (tt, run (setPeriod_hit 1 (cycles_of 4096)) s)).
  { apply setPeriod_first; [lia| |vm_compute; reflexivity].
    intros j Hj. destruct j as [|j]; [|lia]. vm_compute. discriminate. }
  split; [reflexivity|]. split; [reflexivity|]. split; [reflexivity|].
  split; [reflexivity|].
  split; [|split].
  - unfold run at 1. rewrite Hrun. cbn [snd]. rewrite hit_self. reflexivity.
  - unfold run at 1. rewrite Hrun. cbn [snd]. rewrite hit_hw, OCR1A_after_store.
    reflexivity.
  - unfold CYCLES_PER_MICROSEC, TIMER1_MAX_VALUE. intros P HP Hsmall.
    assert (Hc : cycles_of P = 16 * P) by (apply cycles_of_exact; lia).
    assert (Hfirst : setPeriod P s = (tt, run (setPeriod_hit 0 (cycles_of P)) s)).
    { apply setPeriod_first; [lia|intros j Hj; lia|].
      destruct bound_values as (B0 & _). rewrite B0, Hc. lia. }
    split; [reflexivity|].
    unfold run at 1 2. rewrite Hfirst. cbn [snd].
    rewrite hit_self, hit_hw, OCR1A_after_store. cbn [nth prescalerValues].
    rewrite Z.div_1_r, u16_small, Hc by lia.
    split; [reflexivity|lia].
Qed.

(** The theorem at the two periods either side of the boundary: 4095
    microseconds (65520 cycles) gets prescaler 1 with OCR1A = 65520, 4096
    microseconds (65536 cycles) gets prescaler 8 with OCR1A = 8192. *)
Lemma setPeriod_boundary_prescaler_8_witness :
  (csBitsValues !! 0%nat = Some (_clockSelectBits (self (run (setPeriod 4095) power_on))) /\
   OCR1A (hw (run (setPeriod 4095) power_on)) = 65520) /\
  (csBitsValues !! 1%nat = Some (_clockSelectBits (self (run (setPeriod 4096) power_on))) /\
   OCR1A (hw (run (setPeriod 4096) power_on)) = 8192).
Proof.
  destruct (setPeriod_boundary_prescaler_8 power_on)
    as (_ & _ & _ & _ & Hcs8 & Hocr8 & Hbelow).
  destruct (Hbelow 4095) as (_ & Hcs1 & Hocr1).
  - lia.
  - vm_compute. discriminate.
  - split; [split; [exact Hcs1|exact Hocr1]|split; [exact Hcs8|exact Hocr8]].
Defined.

(** The 32-bit product is 16 times the period's low 28 bits. *)
Lemma cycles_of_low_bits (P : Z) : cycles_of P = 16 * (P mod 2 ^ 28).
Proof.
  unfold cycles_of, u32, CYCLES_PER_MICROSEC.
  change (2 ^ 32) with (16 * 2 ^ 28).
  apply Z.mul_mod_distr_l; lia.
Qed.

(** C9. The cycle count is 16 * period modulo 2^32. For every period above
    268435455 the product has wrapped: the cycle count is short of 16 * P by
    at least 2^32. Among those periods, each whose low 28 bits are below 4096
    makes [setPeriod] record the bits of prescaler 1 and set OCR1A to the
    wrapped count, 16 * (P mod 2^28), which is below 65535: no clamp. *)
Theorem setPeriod_product_wraps (P : Z) (s : machine) :
  268435455 < P < 2 ^ 32 ->
  cycles_of P = (CYCLES_PER_MICROSEC * P) mod 2 ^ 32 /\
  cycles_of P + 2 ^ 32 <= CYCLES_PER_MICROSEC * P /\
  (P mod 2 ^ 28 < 4096 ->
     TIMER1_MAX_VALUE * 1024 <= P * CYCLES_PER_MICROSEC /\
     csBitsValues !! 0%nat = Some (_clockSelectBits (self (run (setPeriod P) s))) /\
     OCR1A (hw (run (setPeriod P) s)) = CYCLES_PER_MICROSEC * (P mod 2 ^ 28) /\
     OCR1A (hw (run (setPeriod P) s)) < TIMER1_MAX_VALUE - 1).
Proof.
  intros HP.
  pose proof (cycles_of_low_bits P) as Hc.
  pose proof (Z.mod_pos_bound P (2 ^ 28) ltac:(lia)) as Hm.
  pose proof (Z.div_mod P (2 ^ 28) ltac:(lia)) as Hd.
  assert (Hq : 1 <= P / 2 ^ 28) by (apply Z.div_le_lower_bound; lia).
  unfold CYCLES_PER_MICROSEC, TIMER1_MAX_VALUE in *.
  split; [reflexivity|]. split; [lia|].
  intros Hlow.
  assert (Hrun : setPeriod P s = (tt, run (setPeriod_hit 0 (cycles_of P)) s)).
  { apply setPeriod_first; [lia|intros j Hj; lia|].
    destruct bound_values as (B0 & _). rewrite B0. lia. }
  unfold run at 1 2 3. rewrite Hrun. cbn [snd].
  rewrite hit_self, hit_hw, OCR1A_after_store. cbn [nth prescalerValues].
  rewrite Z.div_1_r, u16_small by lia.
  repeat split; lia.
Qed.

(** The theorem at P = 2^28 + 1: the cycle count is 16, prescaler 1 is
    chosen and OCR1A = 16. *)
Lemma setPeriod_product_wraps_witness :
  cycles_of 268435457 = 16 /\
  csBitsValues !! 0%nat =
    Some (_clockSelectBits (self (run (setPeriod 268435457) power_on))) /\
  OCR1A (hw (run (setPeriod 268435457) power_on)) = 16.
Proof.
  destruct (setPeriod_product_wraps 268435457 power_on) as (Hc & _ & Hsmall).
  - lia.
  - destruct Hsmall as (_ & Hcs & Ho & _).
    + vm_compute. reflexivity.
    + split; [exact Hc|]. split; [exact Hcs|exact Ho].
Defined.

End LargePeriods.

(** * Critical sections of [setPeriod] and [reset] *)
Section CriticalSections.
Import AVR MiniTimer.

Lemma section_trace (r : ioreg) (v : Z) (m : mcu) :
  trace (do_sei (store r v (do_cli m))) = trace m ++ [Cli; Write r (fit r v); Sei].
Proof. destruct r; cbn; rewrite <- !app_assoc; reflexivity. Qed.

Lemma section_flag (r : ioreg) (v : Z) (m : mcu) :
  SREG_I (do_sei (store r v (do_cli m))) = true.
Proof. destruct r; reflexivity. Qed.

Lemma section_masked (ie : bool) (r : ioreg) (v : Z) :
  wide_writes_masked ie [Cli; Write r v; Sei] = true /\
  flag_after ie [Cli; Write r v; Sei] = true.
Proof. destruct r; split; reflexivity. Qed.

(** The trace and the I bit that [setPeriod] leaves, whichever branch runs. *)
Lemma setPeriod_section (P : Z) (s : machine) :
  exists v,
    trace (hw (run (setPeriod P) s)) = trace (hw s) ++ [Cli; Write IO_OCR1A v; Sei] /\
    SREG_I (hw (run (setPeriod P) s)) = true.
Proof.
  destruct (setPeriod_cases P s) as [(k & _ & _ & _ & Hrun)|[_ Hrun]];
    unfold run at 1 2; rewrite Hrun; cbn [snd].
  - rewrite hit_hw, section_trace, section_flag. eauto.
  - rewrite clamp_hw, section_trace, section_flag. eauto.
Qed.

(** C4 as stated fails: entered with the I bit clear, [reset] and
    [setPeriod] both leave it set. *)
Lemma sei_does_not_restore :
  SREG_I (hw power_on) = false /\
  SREG_I (hw (run reset power_on)) <> SREG_I (hw power_on) /\
  SREG_I (hw (run (setPeriod 1000) power_on)) <> SREG_I (hw power_on).
Proof. vm_compute. repeat split; discriminate. Qed.

(** C4, amended. Whatever the I bit is on entry, [setPeriod] and [reset] do
    exactly [cli(); <one write to OCR1A, resp. TCNT1>; sei()]: the write to
    the register pair happens with the I bit clear, and on exit the I bit is
    set. So the I bit on exit equals the I bit on entry exactly when
    interrupts were enabled on entry. *)
Theorem critical_sections_end_enabled (P : Z) (s : machine) :
  (exists v,
     trace (hw (run (setPeriod P) s)) = trace (hw s) ++ [Cli; Write IO_OCR1A v; Sei] /\
     wide_writes_masked (SREG_I (hw s)) [Cli; Write IO_OCR1A v; Sei] = true /\
     flag_after (SREG_I (hw s)) [Cli; Write IO_OCR1A v; Sei] = true) /\
  (trace (hw (run reset s)) = trace (hw s) ++ [Cli; Write IO_TCNT1 0; Sei] /\
   wide_writes_masked (SREG_I (hw s)) [Cli; Write IO_TCNT1 0; Sei] = true /\
   flag_after (SREG_I (hw s)) [Cli; Write IO_TCNT1 0; Sei] = true) /\
  SREG_I (hw (run (setPeriod P) s)) = true /\
  SREG_I (hw (run reset s)) = true /\
  (SREG_I (hw (run (setPeriod P) s)) = SREG_I (hw s) <-> SREG_I (hw s) = true) /\
  (SREG_I (hw (run reset s)) = SREG_I (hw s) <-> SREG_I (hw s) = true).
Proof.
  destruct (setPeriod_section P s) as (v & Htrace & Hflag).
  assert (Hreset : SREG_I (hw (run reset s)) = true) by reflexivity.
  split; [|split]; [| |split; [|split; [|split]]].
  - exists v. split; [exact Htrace|]. apply section_masked.
  - split; [|apply section_masked].
    change (hw (run reset s)) with (do_sei (store IO_TCNT1 0 (do_cli (hw s)))).
    apply section_trace.
  - exact Hflag.
  - exact Hreset.
  - rewrite Hflag. split; intros Heq; symmetry; exact Heq.
  - rewrite Hreset. split; intros Heq; symmetry; exact Heq.
Qed.

End CriticalSections.

(** * The interrupt callback and the interrupt mask *)
Section Callback.
Import AVR MiniTimer.

Lemma u8_land (v : Z) : u8 v = Z.land v (Z.ones 8).
Proof. unfold u8. symmetry. apply Z.land_ones. lia. Qed.

(** Setting bits that are already set changes nothing, also through the
    8-bit store. *)
Lemma u8_lor_again (x b : Z) : u8 (Z.lor (u8 (Z.lor x b)) b) = u8 (Z.lor x b).
Proof.
  rewrite !u8_land. apply Z.bits_inj'. intros n Hn.
  rewrite !Z.land_spec, !Z.lor_spec, !Z.land_spec, Z.lor_spec.
  destruct (Z.testbit x n), (Z.testbit b n), (Z.testbit (Z.ones 8) n); reflexivity.
Qed.

Lemma attach_self (isr : fnptr) (s : machine) :
  self (run (attachInterrupt isr) s) = Object (_clockSelectBits (self s)) isr.
Proof. reflexivity. Qed.

Lemma attach_hw (isr : fnptr) (s : machine) :
  hw (run (attachInterrupt isr) s) =
  store IO_TIMSK1 (Z.lor (TIMSK1 (hw s)) (_BV OCIE1A)) (hw s).
Proof. reflexivity. Qed.

Lemma detach_self (s : machine) :
  self (run detachInterrupt s) = Object (_clockSelectBits (self s)) emptyCallback.
Proof. reflexivity. Qed.

Lemma detach_hw (s : machine) :
  hw (run detachInterrupt s) = store IO_TIMSK1 0 (hw s).
Proof. reflexivity. Qed.

(** C7. Calling [attachInterrupt isr] twice leaves the object and every
    register as one call does, and so does calling [detachInterrupt] twice;
    after [attachInterrupt isr], [getCallback] returns [isr]; after
    [detachInterrupt] it returns [emptyCallback]. *)
Theorem attach_detach_idempotent (isr : fnptr) (s : machine) :
  (self (run (attachInterrupt isr) (run (attachInterrupt isr) s)) =
     self (run (attachInterrupt isr) s) /\
   same_registers (hw (run (attachInterrupt isr) (run (attachInterrupt isr) s)))
                  (hw (run (attachInterrupt isr) s))) /\
  (self (run detachInterrupt (run detachInterrupt s)) = self (run detachInterrupt s) /\
   same_registers (hw (run detachInterrupt (run detachInterrupt s)))
                  (hw (run detachInterrupt s))) /\
  result getCallback (run (attachInterrupt isr) s) = isr /\
  result getCallback (run detachInterrupt s) = emptyCallback.
Proof.
  split; [|split; [|split]].
  - split; [reflexivity|].
    rewrite !attach_hw. unfold same_registers. cbn.
    repeat split. apply u8_lor_again.
  - split; [reflexivity|].
    rewrite !detach_hw. unfold same_registers. cbn. repeat split.
  - reflexivity.
  - reflexivity.
Qed.

(** C10. [detachInterrupt] leaves TIMSK1 = 0, all enable bits clear;
    [attachInterrupt] leaves TIMSK1 with bit OCIE1A set and every other bit
    of the register as it was. So when any bit other than OCIE1A is set in
    TIMSK1, [attachInterrupt] followed by [detachInterrupt] does not give
    TIMSK1 its old value back. *)
Theorem detach_clears_whole_mask (isr : fnptr) (s : machine) (n : Z) :
  n <> OCIE1A ->
  Z.testbit (TIMSK1 (hw s)) n = true ->
  TIMSK1 (hw (run detachInterrupt s)) = 0 /\
  TIMSK1 (hw (run (attachInterrupt isr) s)) = u8 (Z.lor (TIMSK1 (hw s)) (_BV OCIE1A)) /\
  Z.testbit (TIMSK1 (hw (run (attachInterrupt isr) s))) OCIE1A = true /\
  (forall k, 0 <= k < 8 -> k <> OCIE1A ->
     Z.testbit (TIMSK1 (hw (run (attachInterrupt isr) s))) k = Z.testbit (TIMSK1 (hw s)) k) /\
  TIMSK1 (hw (run detachInterrupt (run (attachInterrupt isr) s))) = 0 /\
  TIMSK1 (hw (run detachInterrupt (run (attachInterrupt isr) s))) <> TIMSK1 (hw s).
Proof.
  intros Hn Hbit.
  assert (Hattach : TIMSK1 (hw (run (attachInterrupt isr) s)) =
                    u8 (Z.lor (TIMSK1 (hw s)) (_BV OCIE1A))) by reflexivity.
  assert (Hbv : forall k, 0 <= k -> Z.testbit (_BV OCIE1A) k = bool_decide (k = OCIE1A)).
  { intros k Hk. unfold _BV, OCIE1A. rewrite Z.shiftl_1_l.
    case_bool_decide as Hd.
    - subst k. reflexivity.
    - apply Z.pow2_bits_false. lia. }
  split; [reflexivity|]. split; [exact Hattach|].
  split; [|split; [|split]].
  - rewrite Hattach, u8_land, Z.land_spec, Z.lor_spec.
    rewrite Hbv by (unfold OCIE1A; lia).
    rewrite bool_decide_eq_true_2 by reflexivity.
    rewrite orb_true_r. reflexivity.
  - intros k Hk Hne. rewrite Hattach, u8_land, Z.land_spec, Z.lor_spec.
    rewrite Hbv by lia. rewrite bool_decide_eq_false_2 by exact Hne.
    rewrite orb_false_r, Z.ones_spec_low by lia. apply andb_true_r.
  - reflexivity.
  - change (TIMSK1 (hw (run detachInterrupt (run (attachInterrupt isr) s)))) with 0.
    intros Hzero. rewrite <- Hzero, Z.bits_0 in Hbit. discriminate.
Qed.

(** The theorem with the overflow enable bit TOIE1 (bit 0) set beforehand. *)
Lemma detach_clears_whole_mask_witness :
  TIMSK1 (hw (run detachInterrupt (run (attachInterrupt (fn 1))
            (Machine MiniTimerOne_ctor nullptr (Mcu true 0 0 1 0 0 []))))) <> 1.
Proof.
  apply (detach_clears_whole_mask (fn 1)
           (Machine MiniTimerOne_ctor nullptr (Mcu true 0 0 1 0 0 [])) 0).
  - vm_compute. discriminate.
  - reflexivity.
Defined.

End Callback.

(** * The singleton pointer *)
Section Singleton.
Import AVR MiniTimer.

(** No function of the class assigns [SINGLETON]. *)
Lemma exec_keeps_SINGLETON (c : call) (s : machine) :
  SINGLETON (exec c s) = SINGLETON s.
Proof.
  destruct c as [| |P| | | | | |]; try reflexivity.
  cbn [exec].
  destruct (setPeriod_cases P s) as [(k & _ & _ & _ & Hrun)|[_ Hrun]];
    unfold run at 1; rewrite Hrun; reflexivity.
Qed.

Lemma exec_all_keeps_SINGLETON (cs : list call) : forall s : machine,
  SINGLETON (exec_all cs s) = SINGLETON s.
Proof.
  induction cs as [|c cs IH]; intros s; [reflexivity|].
  cbn [exec_all foldl]. fold (exec_all cs (exec c s)).
  rewrite IH. apply exec_keeps_SINGLETON.
Qed.

(** C8. Start from any object and any register contents, with [SINGLETON]
    as its initialiser leaves it. Then [getInstance] returns the null pointer
    at once and after any sequence of calls of the class's functions, since
    none of them assigns [SINGLETON]; the initialiser of [MiniTimer1], which
    reads through that pointer, has no defined value whatever objects exist;
    and the interrupt routine, which reads its callback from [MiniTimer1],
    has none either. *)
Theorem getInstance_is_null (cs : list call) (o : MiniTimerOne) (m : mcu)
    (heap : gmap N MiniTimerOne) :
  SINGLETON_initializer = nullptr /\
  result getInstance (Machine o SINGLETON_initializer m) = nullptr /\
  result getInstance (exec_all cs (Machine o SINGLETON_initializer m)) = nullptr /\
  SINGLETON (exec_all cs (Machine o SINGLETON_initializer m)) = SINGLETON_initializer /\
  MiniTimer1_initializer heap (exec_all cs (Machine o SINGLETON_initializer m)) = None /\
  ISR_TIMER1_COMPA
    (MiniTimer1_initializer heap (Machine o SINGLETON_initializer m))
    (exec_all cs (Machine o SINGLETON_initializer m)) = None.
Proof.
  pose proof (exec_all_keeps_SINGLETON cs (Machine o SINGLETON_initializer m)) as Hkeep.
  cbn [SINGLETON] in Hkeep.
  split; [reflexivity|]. split; [reflexivity|].
  split; [exact Hkeep|]. split; [exact Hkeep|].
  split.
  - unfold MiniTimer1_initializer, result, getInstance. cbn [fst].
    rewrite Hkeep. reflexivity.
  - reflexivity.
Qed.

End Singleton.

(** * The task table and the scheduling pass *)
Section TaskTable.
Import Sched.

Lemma registered_length (s : Scheduler) :
  wf s -> length (registered s) = Z.to_nat (nTasks s).
Proof.
  intros [Hlen Hn]. unfold registered, MAX_TASKS in *.
  rewrite length_take. lia.
Qed.

Lemma init_wf {World : Type} `{Collaborators World} (bp : Z) (s : Scheduler) (w : World) :
  Z.of_nat (length (taskList s)) = MAX_TASKS ->
  wf (init bp s w).1 /\ registered (init bp s w).1 = [].
Proof.
  intros Hlen. unfold init. destruct (Timer_new w) as [t w1]. cbn.
  unfold wf, MAX_TASKS in *. cbn. repeat split; try lia.
Qed.

(** [addTask] always returns on a well-formed scheduler, and keeps it
    well-formed: the count never passes [MAX_TASKS - 1]. *)
Lemma addTask_wf (task : Taskptr) (s : Scheduler) :
  wf s -> exists b s', addTask task s = Some (b, s') /\ wf s'.
Proof.
  intros [Hlen Hn]. unfold addTask, array_store, wf, MAX_TASKS in *.
  destruct (Z.ltb_spec (nTasks s) (10 - 1)) as [Hfree|Hfull].
  - assert (Hin : ((0 <=? nTasks s) && (nTasks s <? Z.of_nat (length (taskList s)))) = true).
    { apply andb_true_iff. split; [apply Z.leb_le|apply Z.ltb_lt]; lia. }
    rewrite Hin. cbn. eexists _, _. split; [reflexivity|].
    cbn. rewrite length_insert. lia.
  - eexists _, _. split; [reflexivity|]. split; assumption.
Qed.

(** C6. On a table of [MAX_TASKS] = 10 slots: with fewer than 9 tasks
    registered, [addTask] returns true, the registered sequence becomes the
    old one followed by the new task and its length grows by one; with 9 (or
    more) registered, [addTask] returns false and the scheduler, hence the
    registered sequence, its length and its order, is unchanged. *)
Theorem addTask_capacity (task : Taskptr) (s : Scheduler) :
  Z.of_nat (length (taskList s)) = MAX_TASKS ->
  0 <= nTasks s ->
  (nTasks s < 9 ->
     exists s', addTask task s = Some (true, s') /\
       registered s' = registered s ++ [task] /\
       nTasks s' = nTasks s + 1 /\
       length (registered s') = S (length (registered s)) /\
       Z.of_nat (length (taskList s')) = MAX_TASKS) /\
  (9 <= nTasks s -> addTask task s = Some (false, s)).
Proof.
  intros Hlen Hn. unfold MAX_TASKS in *. split.
  - intros Hfree. unfold addTask, array_store, MAX_TASKS.
    assert (Hlt : (nTasks s <? 10 - 1) = true) by (apply Z.ltb_lt; lia).
    assert (Hin : ((0 <=? nTasks s) && (nTasks s <? Z.of_nat (length (taskList s)))) = true).
    { apply andb_true_iff. split; [apply Z.leb_le|apply Z.ltb_lt]; lia. }
    rewrite Hlt, Hin. cbn.
    eexists. split; [reflexivity|].
    assert (Hreg : take (Z.to_nat (nTasks s + 1)) (<[Z.to_nat (nTasks s) := task]> (taskList s)) =
                   take (Z.to_nat (nTasks s)) (taskList s) ++ [task]).
    { replace (Z.to_nat (nTasks s + 1)) with (S (Z.to_nat (nTasks s))) by lia.
      erewrite take_S_r by (apply list_lookup_insert_eq; lia).
      rewrite take_insert_ge by lia. reflexivity. }
    unfold registered. cbn [nTasks taskList].
    repeat split.
    + exact Hreg.
    + rewrite Hreg, length_app. cbn. lia.
    + rewrite length_insert. exact Hlen.
  - intros Hfull. unfold addTask, MAX_TASKS.
    assert (Hge : (nTasks s <? 10 - 1) = false) by (apply Z.ltb_ge; lia).
    rewrite Hge. reflexivity.
Qed.

(** The theorem on a table holding the tasks 11 and 12, and on a full one. *)
Lemma addTask_capacity_witness :
  (exists s', addTask 13%N (Build 1000 2 [11; 12; 0; 0; 0; 0; 0; 0; 0; 0]%N 0%N) = Some (true, s') /\
     registered s' = [11; 12; 13]%N) /\
  addTask 20%N (Build 1000 9 [11; 12; 13; 14; 15; 16; 17; 18; 19; 0]%N 0%N) =
    Some (false, Build 1000 9 [11; 12; 13; 14; 15; 16; 17; 18; 19; 0]%N 0%N).
Proof.
  split.
  - destruct (addTask_capacity 13%N (Build 1000 2 [11; 12; 0; 0; 0; 0; 0; 0; 0; 0]%N 0%N))
      as [Hadd _]; [reflexivity|cbn; lia|].
    destruct Hadd as (s' & Hs' & Hreg & _); [cbn; lia|].
    exists s'. split; [exact Hs'|exact Hreg].
  - apply (addTask_capacity 20%N (Build 1000 9 [11; 12; 13; 14; 15; 16; 17; 18; 19; 0]%N 0%N));
      [reflexivity|cbn; lia|cbn; lia].
Defined.

End TaskTable.

Section SchedulingPass.
Import Sched.
Context {World : Type} `{Collaborators World}.

(** A pass asks every task of the sequence once, in order. *)
Lemma pass_asked (bp : Z) (tasks : list Taskptr) (w w' : World) (acts : list action) :
  pass bp tasks w acts w' -> asked acts = tasks.
Proof.
  induction 1 as [w|task rest w w1 acts w2 Hdue Hrest IH|task rest w w1 acts w2 Hidle Hrest IH].
  - reflexivity.
  - cbn. f_equal. exact IH.
  - cbn. f_equal. exact IH.
Qed.

(** Inside the calls of a pass: an answer "due" is followed at once by the
    tick of the same task, an answer "not due" is not followed by a tick,
    every tick comes right after the answer "due" of the same task, and
    there is no wait. *)
Lemma pass_tick_adjacent (bp : Z) (tasks : list Taskptr) (w w' : World) (acts : list action) :
  pass bp tasks w acts w' ->
  forall (pre post : list action) (a : action),
    acts = pre ++ a :: post ->
    match a with
    | UpdateAndCheckTime t _ true => exists post', post = Tick t :: post'
    | UpdateAndCheckTime _ _ false => forall t post', post <> Tick t :: post'
    | Tick t => exists pre', pre = pre' ++ [UpdateAndCheckTime t bp true]
    | WaitForNextTick => False
    end.
Proof.
  induction 1 as [w|task rest w w1 acts w2 Hdue Hrest IH|task rest w w1 acts w2 Hidle Hrest IH];
    intros pre post a Heq.
  - destruct pre; discriminate.
  - destruct pre as [|x [|y pre]].
    + injection Heq as <- <-. eauto.
    + injection Heq as <- <- <-. exists []. reflexivity.
    + injection Heq as <- <- Heq. specialize (IH _ _ _ Heq).
      destruct a as [|t b d|t]; try exact IH.
      destruct IH as [pre' ->]. eexists (_ :: _ :: pre'). reflexivity.
  - destruct pre as [|x pre].
    + injection Heq as <- <-. intros t post' ->. inversion Hrest.
    + injection Heq as <- Heq. specialize (IH _ _ _ Heq).
      destruct a as [|t b d|t]; try exact IH.
      destruct IH as [pre' ->]. eexists (_ :: pre'). reflexivity.
Qed.

(** The loop of [schedule], entered at index [i] inside the table, performs
    a pass over the [left] entries from [i] on. *)
Lemma schedule_for_pass (s : Scheduler) (left : nat) : forall (i : nat) (e : env World),
  (i + left <= length (taskList s))%nat ->
  exists (e' : env World) (acts : list action),
    schedule_for left i s e = Some e' /\
    calls e' = calls e ++ acts /\
    pass (basePeriod s) (take left (drop i (taskList s))) (world e) acts (world e').
Proof.
  induction left as [|left IH]; intros i e Hin.
  - exists e, []. cbn. rewrite app_nil_r. repeat split. constructor.
  - destruct (lookup_lt_is_Some_2 (taskList s) i ltac:(lia)) as [task Htask].
    rewrite (drop_S _ _ _ Htask). cbn [take schedule_for].
    unfold schedule_body. rewrite Htask. cbn [mbind option_bind].
    destruct (Task_updateAndCheckTime task (basePeriod s) (world e)) as [due w1] eqn:Hupd.
    destruct due.
    + destruct (IH (S i) (Env (Task_tick task w1)
                 ((calls e ++ [UpdateAndCheckTime task (basePeriod s) true]) ++ [Tick task])))
        as (e' & acts & Hrun & Hcalls & Hpass); [lia|].
      exists e', (UpdateAndCheckTime task (basePeriod s) true :: Tick task :: acts).
      cbn [calls world] in *. split; [exact Hrun|]. split.
      * rewrite Hcalls, <- !app_assoc. reflexivity.
      * eapply pass_due; eassumption.
    + destruct (IH (S i) (Env w1 (calls e ++ [UpdateAndCheckTime task (basePeriod s) false])))
        as (e' & acts & Hrun & Hcalls & Hpass); [lia|].
      exists e', (UpdateAndCheckTime task (basePeriod s) false :: acts).
      cbn [calls world] in *. split; [exact Hrun|]. split.
      * rewrite Hcalls, <- !app_assoc. reflexivity.
      * eapply pass_idle; eassumption.
Qed.

(** C5. On a well-formed scheduler [schedule] returns; the calls it adds
    are the wait for the tick followed by one pass over the registered tasks
    in registration order: every registered task is asked
    [updateAndCheckTime(basePeriod)] exactly once, in table order, and a task
    that answers true is ticked right then, before the next task is asked. *)
Theorem schedule_one_pass (s : Scheduler) (e : env World) :
  wf s ->
  exists (e' : env World) (acts : list action),
    schedule s e = Some e' /\
    calls e' = calls e ++ WaitForNextTick :: acts /\
    pass (basePeriod s) (registered s)
         (Timer_waitForNextTick (timer s) (world e)) acts (world e') /\
    asked acts = registered s /\
    length (asked acts) = Z.to_nat (nTasks s) /\
    (forall (pre post : list action) (a : action),
       acts = pre ++ a :: post ->
       match a with
       | UpdateAndCheckTime t _ true => exists post', post = Tick t :: post'
       | UpdateAndCheckTime _ _ false => forall t post', post <> Tick t :: post'
       | Tick t => exists pre', pre = pre' ++ [UpdateAndCheckTime t (basePeriod s) true]
       | WaitForNextTick => False
       end).
Proof.
  intros Hwf. pose proof Hwf as [Hlen Hn]. unfold MAX_TASKS in *.
  destruct (schedule_for_pass s (Z.to_nat (nTasks s)) 0
              (Env (Timer_waitForNextTick (timer s) (world e)) (calls e ++ [WaitForNextTick])))
    as (e' & acts & Hrun & Hcalls & Hpass); [lia|].
  exists e', acts. cbn [calls world drop] in *.
  split; [exact Hrun|]. split.
  - rewrite Hcalls, <- app_assoc. reflexivity.
  - split; [exact Hpass|].
    pose proof (pass_asked _ _ _ _ _ Hpass) as Hasked.
    split; [exact Hasked|]. split.
    + rewrite Hasked. apply registered_length. exact Hwf.
    + eapply pass_tick_adjacent. exact Hpass.
Qed.

End SchedulingPass.

Section SchedulingExample.
Import Sched.

(** The theorem on two periodic tasks: task 11 due at every tick, task 12
    due at every third tick and two ticks into its period. Both are asked,
    in that order, and both are ticked. *)
Lemma schedule_one_pass_witness :
  exists e',
    @schedule _ periodic_tasks (Build 1000 2 [11; 12; 0; 0; 0; 0; 0; 0; 0; 0]%N 0%N)
      (Env {[ 11%N := (1000, 0); 12%N := (3000, 2000) ]} []) = Some e' /\
    calls e' = [WaitForNextTick;
                UpdateAndCheckTime 11%N 1000 true; Tick 11%N;
                UpdateAndCheckTime 12%N 1000 true; Tick 12%N].
Proof.
  destruct (@schedule_one_pass _ periodic_tasks
              (Build 1000 2 [11; 12; 0; 0; 0; 0; 0; 0; 0; 0]%N 0%N)
              (Env {[ 11%N := (1000, 0); 12%N := (3000, 2000) ]} []))
    as (e' & acts & Hrun & Hcalls & _).
  - split; [reflexivity|cbn; unfold MAX_TASKS; lia].
  - exists e'. split; [exact Hrun|].
    vm_compute in Hrun. injection Hrun as <-. reflexivity.
Defined.

End SchedulingExample.

(** * Further properties of the timer driver *)
Section TimerConfiguration.
Import AVR MiniTimer.

(** The state [setPeriod] leaves, in one equation: table index [k], compare
    value [v]; the final clamp is index 4 with [v] = 65535. *)
Lemma setPeriod_state (P : Z) (s : machine) :
  exists (k : nat) (v : Z),
    (k < 5)%nat /\ 0 <= v <= 65535 /\
    run (setPeriod P) s =
      Machine (Object (nth k csBitsValues 0) (_isrCallback (self s))) (SINGLETON s)
              (do_sei (store IO_OCR1A v (do_cli (hw s)))) /\
    ((forall j, (j < k)%nat -> bound j <= cycles_of P) /\
       cycles_of P < bound k /\ v = cycles_of P / nth k prescalerValues 0
     \/ k = 4%nat /\ bound 4 <= cycles_of P /\ v = 65535).
Proof.
  pose proof (cycles_of_range P) as Hc.
  destruct bound_values as (B0 & B1 & B2 & B3 & B4).
  destruct (setPeriod_cases P s) as [(k & Hk & Hbefore & Hhit & Hrun)|[Hmiss Hrun]].
  - exists k, (cycles_of P / nth k prescalerValues 0).
    split; [exact Hk|]. split.
    + destruct k as [|[|[|[|[|k]]]]]; [| | | | |lia];
        [rewrite B0 in Hhit|rewrite B1 in Hhit|rewrite B2 in Hhit
        |rewrite B3 in Hhit|rewrite B4 in Hhit];
        cbn [nth prescalerValues];
        match goal with |- 0 <= _ / ?p <= _ =>
          pose proof (quotient_fits (cycles_of P) p ltac:(lia) ltac:(lia)) end; lia.
    + split; [|left; auto].
      unfold run at 1. rewrite Hrun. reflexivity.
  - exists 4%nat, 65535. split; [lia|]. split; [lia|]. split; [|right; auto].
    unfold run at 1. rewrite Hrun. reflexivity.
Qed.

Lemma store_OCR1A_small (v : Z) (m : mcu) :
  0 <= v <= 65535 -> OCR1A (do_sei (store IO_OCR1A v (do_cli m))) = v.
Proof. intros Hv. rewrite OCR1A_after_store. apply u16_small. lia. Qed.

Lemma prescaler_of_table :
  prescaler_of (nth 0 csBitsValues 0) = 1 /\ prescaler_of (nth 1 csBitsValues 0) = 8 /\
  prescaler_of (nth 2 csBitsValues 0) = 64 /\ prescaler_of (nth 3 csBitsValues 0) = 256 /\
  prescaler_of (nth 4 csBitsValues 0) = 1024.
Proof. repeat split. Qed.

(** Euclidean division by a positive constant, in the form [lia] uses. *)
Lemma div_bounds (c p : Z) : 0 < p -> p * (c / p) <= c < p * (c / p) + p.
Proof.
  intros Hp. pose proof (Z.mul_div_le c p Hp). pose proof (Z.mul_succ_div_gt c p Hp). lia.
Qed.

(** X1. Whatever period is passed, [setPeriod] leaves a configuration of
    the table: clock-select bits of some index [i], a compare value within
    0..65535, and compare value times prescaler never above the 32-bit cycle
    count. When that count is below 65536 * 1024 it is missed by less than
    one prescaler step; otherwise the prescaler is 1024 and the compare
    value 65535. *)
Theorem setPeriod_configuration (P : Z) (s : machine) :
  exists (i : nat) (p : Z),
    prescalerValues !! i = Some p /\
    csBitsValues !! i = Some (_clockSelectBits (self (run (setPeriod P) s))) /\
    0 <= OCR1A (hw (run (setPeriod P) s)) <= TIMER1_MAX_VALUE - 1 /\
    OCR1A (hw (run (setPeriod P) s)) * p <= cycles_of P /\
    (cycles_of P < TIMER1_MAX_VALUE * 1024 ->
       cycles_of P < (OCR1A (hw (run (setPeriod P) s)) + 1) * p) /\
    (TIMER1_MAX_VALUE * 1024 <= cycles_of P ->
       p = 1024 /\ OCR1A (hw (run (setPeriod P) s)) = TIMER1_MAX_VALUE - 1).
Proof.
  unfold TIMER1_MAX_VALUE.
  destruct bound_values as (B0 & B1 & B2 & B3 & B4).
  destruct (setPeriod_state P s) as (k & v & Hk & Hv & -> & Hhow).
  cbn [self hw _clockSelectBits]. rewrite store_OCR1A_small by exact Hv.
  exists k, (nth k prescalerValues 0).
  destruct Hhow as [(Hbefore & Hhit & ->)|(-> & Hmiss & ->)].
  - destruct k as [|[|[|[|[|k]]]]]; [| | | | |lia];
      [rewrite B0 in Hhit|rewrite B1 in Hhit|rewrite B2 in Hhit
      |rewrite B3 in Hhit|rewrite B4 in Hhit];
      cbn [nth prescalerValues] in *;
      match goal with |- context [cycles_of P / ?p] =>
        pose proof (div_bounds (cycles_of P) p ltac:(lia)) end;
      (split; [reflexivity|]); (split; [reflexivity|]);
      repeat split; lia.
  - rewrite B4 in Hmiss. cbn [nth prescalerValues].
    split; [reflexivity|]. split; [reflexivity|]. repeat split; lia.
Qed.

(** X2. [setPeriod] only prepares the configuration: TCCR1A, TCCR1B (so
    whether the timer runs, and from which clock), TIMSK1, TCNT1, the stored
    callback and [SINGLETON] are as before. *)
Theorem setPeriod_frame (P : Z) (s : machine) :
  TCCR1A (hw (run (setPeriod P) s)) = TCCR1A (hw s) /\
  TCCR1B (hw (run (setPeriod P) s)) = TCCR1B (hw s) /\
  TIMSK1 (hw (run (setPeriod P) s)) = TIMSK1 (hw s) /\
  TCNT1 (hw (run (setPeriod P) s)) = TCNT1 (hw s) /\
  _isrCallback (self (run (setPeriod P) s)) = _isrCallback (self s) /\
  SINGLETON (run (setPeriod P) s) = SINGLETON s.
Proof.
  destruct (setPeriod_state P s) as (k & v & _ & _ & -> & _).
  repeat split.
Qed.

(** X3. The last [setPeriod] wins: after [setPeriod Q], [setPeriod P]
    leaves the object and every register as [setPeriod P] alone does. *)
Theorem setPeriod_overwrites (P Q : Z) (s : machine) :
  self (run (setPeriod P) (run (setPeriod Q) s)) = self (run (setPeriod P) s) /\
  same_registers (hw (run (setPeriod P) (run (setPeriod Q) s))) (hw (run (setPeriod P) s)).
Proof.
  destruct (setPeriod_state Q s) as (kq & vq & _ & _ & Hq & _).
  destruct (setPeriod_state P s) as (k & v & Hk & Hv & Hp & Hhow).
  destruct (setPeriod_state P (run (setPeriod Q) s)) as (k' & v' & Hk' & Hv' & Hp' & Hhow').
  assert (Hsame : k' = k /\ v' = v).
  { destruct bound_values as (B0 & B1 & B2 & B3 & B4).
    destruct Hhow as [(Hb & Hh & ->)|(-> & Hm & ->)];
      destruct Hhow' as [(Hb' & Hh' & ->)|(-> & Hm' & ->)].
    - assert (k' = k) as ->; [|split; reflexivity].
      destruct (Nat.lt_trichotomy k' k) as [Hlt|[Heq|Hgt]]; [|exact Heq|].
      + specialize (Hb _ Hlt). lia.
      + specialize (Hb' _ Hgt). lia.
    - assert (Hle : bound k <= bound 4).
      { rewrite B4. destruct k as [|[|[|[|[|k]]]]]; lia. }
      lia.
    - assert (Hle : bound k' <= bound 4).
      { rewrite B4. destruct k' as [|[|[|[|[|k']]]]]; lia. }
      lia.
    - split; reflexivity. }
  destruct Hsame as [-> ->].
  rewrite Hp', Hq, Hp. cbn [self hw _isrCallback].
  split; [reflexivity|].
  unfold same_registers. repeat split.
Qed.

End TimerConfiguration.

Section TimerMonotone.
Import AVR MiniTimer.

Lemma programmed_cycles_setPeriod (P : Z) (s : machine) :
  exists (k : nat) (v : Z),
    (k < 5)%nat /\ 0 <= v <= 65535 /\
    programmed_cycles (run (setPeriod P) s) = v * prescaler_of (nth k csBitsValues 0) /\
    ((forall j, (j < k)%nat -> bound j <= cycles_of P) /\
       cycles_of P < bound k /\ v = cycles_of P / nth k prescalerValues 0
     \/ k = 4%nat /\ bound 4 <= cycles_of P /\ v = 65535).
Proof.
  destruct (setPeriod_state P s) as (k & v & Hk & Hv & Hrun & Hhow).
  exists k, v. split; [exact Hk|]. split; [exact Hv|]. split; [|exact Hhow].
  unfold programmed_cycles. rewrite Hrun. cbn [self hw _clockSelectBits].
  rewrite store_OCR1A_small by exact Hv. reflexivity.
Qed.

(** What [setPeriod] programs, as a function of the cycle count alone. *)
Lemma programmed_cycles_value (P : Z) (s : machine) :
  let c := cycles_of P in
  let r := programmed_cycles (run (setPeriod P) s) in
  (c < 65536 -> r = c) /\
  (65536 <= c < 524288 -> r = 8 * (c / 8)) /\
  (524288 <= c < 4194304 -> r = 64 * (c / 64)) /\
  (4194304 <= c < 16777216 -> r = 256 * (c / 256)) /\
  (16777216 <= c < 67108864 -> r = 1024 * (c / 1024)) /\
  (67108864 <= c -> r = 1024 * 65535).
Proof.
  cbn zeta.
  destruct bound_values as (B0 & B1 & B2 & B3 & B4).
  destruct prescaler_of_table as (T0 & T1 & T2 & T3 & T4).
  destruct (programmed_cycles_setPeriod P s) as (k & v & Hk & Hv & -> & Hhow).
  destruct Hhow as [(Hbefore & Hhit & ->)|(-> & Hmiss & ->)].
  - assert (L0 : (0 < k)%nat -> 65536 <= cycles_of P)
      by (intros Hlt; rewrite <- B0; apply Hbefore; lia).
    assert (L1 : (1 < k)%nat -> 524288 <= cycles_of P)
      by (intros Hlt; rewrite <- B1; apply Hbefore; lia).
    assert (L2 : (2 < k)%nat -> 4194304 <= cycles_of P)
      by (intros Hlt; rewrite <- B2; apply Hbefore; lia).
    assert (L3 : (3 < k)%nat -> 16777216 <= cycles_of P)
      by (intros Hlt; rewrite <- B3; apply Hbefore; lia).
    clear Hbefore.
    destruct k as [|[|[|[|[|k]]]]]; [| | | | |lia];
      [rewrite B0 in Hhit; rewrite T0|rewrite B1 in Hhit; rewrite T1
      |rewrite B2 in Hhit; rewrite T2|rewrite B3 in Hhit; rewrite T3
      |rewrite B4 in Hhit; rewrite T4];
      cbn [nth prescalerValues];
      rewrite ?Z.div_1_r; repeat split; intros; lia.
  - rewrite B4 in Hmiss. rewrite T4. repeat split; intros; lia.
Qed.

(** X4. As long as 16 * P fits 32 bits, a longer requested period never
    programs fewer cycles: for P1 <= P2 the compare value times the
    prescaler after [setPeriod P1] is at most that after [setPeriod P2],
    across prescaler changes and into the clamp. *)
Theorem setPeriod_monotone (P1 P2 : Z) (s1 s2 : machine) :
  0 <= P1 <= P2 ->
  CYCLES_PER_MICROSEC * P2 < 2 ^ 32 ->
  programmed_cycles (run (setPeriod P1) s1) <= programmed_cycles (run (setPeriod P2) s2).
Proof.
  unfold CYCLES_PER_MICROSEC. intros HP Hfit.
  assert (Hc1 : cycles_of P1 = 16 * P1) by (apply cycles_of_exact; lia).
  assert (Hc2 : cycles_of P2 = 16 * P2) by (apply cycles_of_exact; lia).
  pose proof (programmed_cycles_value P1 s1) as V1.
  pose proof (programmed_cycles_value P2 s2) as V2.
  cbn zeta in V1, V2. rewrite Hc1 in V1. rewrite Hc2 in V2.
  set (c1 := 16 * P1) in *. set (c2 := 16 * P2) in *.
  assert (Hle : 0 <= c1 <= c2) by (unfold c1, c2; lia).
  clearbody c1 c2.
  destruct V1 as (A0 & A1 & A2 & A3 & A4 & A5).
  destruct V2 as (C0 & C1 & C2 & C3 & C4 & C5).
  assert (R1 : c1 < 65536 \/ 65536 <= c1 < 524288 \/ 524288 <= c1 < 4194304 \/
               4194304 <= c1 < 16777216 \/ 16777216 <= c1 < 67108864 \/
               67108864 <= c1) by lia.
  assert (R2 : c2 < 65536 \/ 65536 <= c2 < 524288 \/ 524288 <= c2 < 4194304 \/
               4194304 <= c2 < 16777216 \/ 16777216 <= c2 < 67108864 \/
               67108864 <= c2) by lia.
  destruct R1 as [R1|[R1|[R1|[R1|[R1|R1]]]]];
    [rewrite (A0 R1)|rewrite (A1 R1); pose proof (div_bounds c1 8 ltac:(lia))
    |rewrite (A2 R1); pose proof (div_bounds c1 64 ltac:(lia))
    |rewrite (A3 R1); pose proof (div_bounds c1 256 ltac:(lia))
    |rewrite (A4 R1); pose proof (div_bounds c1 1024 ltac:(lia))
    |rewrite (A5 R1)];
    clear A0 A1 A2 A3 A4 A5;
    (destruct R2 as [R2|[R2|[R2|[R2|[R2|R2]]]]];
      [rewrite (C0 R2)|rewrite (C1 R2); pose proof (div_bounds c2 8 ltac:(lia))
      |rewrite (C2 R2); pose proof (div_bounds c2 64 ltac:(lia))
      |rewrite (C3 R2); pose proof (div_bounds c2 256 ltac:(lia))
      |rewrite (C4 R2); pose proof (div_bounds c2 1024 ltac:(lia))
      |rewrite (C5 R2)]);
    clear C0 C1 C2 C3 C4 C5; lia.
Qed.

(** The theorem at 4095 and 4096 microseconds, either side of the change
    from prescaler 1 to prescaler 8: 65520 and 65536 cycles. *)
Lemma setPeriod_monotone_witness :
  programmed_cycles (run (setPeriod 4095) power_on) <=
  programmed_cycles (run (setPeriod 4096) power_on).
Proof.
  apply (setPeriod_monotone 4095 4096 power_on power_on).
  - lia.
  - vm_compute. reflexivity.
Defined.

End TimerMonotone.

(** * Starting and stopping the timer *)
Section StartStop.
Import AVR MiniTimer.

(** The table index and compare value [setPeriod P] chooses do not depend
    on the state it runs in. *)
Lemma setPeriod_uniform (P : Z) :
  exists (k : nat) (v : Z),
    (k < 5)%nat /\ 0 <= v <= 65535 /\
    forall s : machine,
      run (setPeriod P) s =
        Machine (Object (nth k csBitsValues 0) (_isrCallback (self s))) (SINGLETON s)
                (do_sei (store IO_OCR1A v (do_cli (hw s)))).
Proof.
  destruct (setPeriod_state P power_on) as (k & v & Hk & Hv & _ & Hhow).
  exists k, v. split; [exact Hk|]. split; [exact Hv|]. intros s.
  destruct Hhow as [(Hbefore & Hhit & ->)|(-> & Hmiss & ->)].
  - unfold run at 1. rewrite (setPeriod_first P k s Hk Hbefore Hhit). reflexivity.
  - unfold run at 1. rewrite (setPeriod_none P s Hmiss). reflexivity.
Qed.

Lemma three_bits (c : Z) :
  0 <= c <= 7 -> c = 0 \/ c = 1 \/ c = 2 \/ c = 3 \/ c = 4 \/ c = 5 \/ c = 6 \/ c = 7.
Proof. lia. Qed.

(** OR-ing clock-select bits into a CTC-mode TCCR1B stays within the
    three clock-select bits. *)
Lemma lor_three_bits (c cs : Z) :
  0 <= c <= 7 -> 0 <= cs <= 7 ->
  u8 (Z.lor (Z.lor (_BV WGM12) c) cs) = Z.lor (_BV WGM12) (Z.lor c cs) /\
  0 <= Z.lor c cs <= 7 /\
  Z.land (Z.lor (_BV WGM12) (Z.lor c cs)) 7 = Z.lor c cs.
Proof.
  intros Hc Hcs.
  destruct (three_bits c Hc) as [->|[->|[->|[->|[->|[->|[->| ->]]]]]]];
    destruct (three_bits cs Hcs) as [->|[->|[->|[->|[->|[->|[->| ->]]]]]]];
    vm_compute; repeat split; discriminate.
Qed.

(** X5. [stop], [setPeriod P], [start]: TCCR1B then holds the CTC mode bit
    WGM12 together with exactly the clock-select bits [setPeriod P] recorded,
    whatever TCCR1B held before; its three clock-select bits are those of a
    table entry. *)
Theorem start_after_stop (P : Z) (s : machine) :
  TCCR1B (hw (run start (run (setPeriod P) (run stop s)))) =
    Z.lor (_BV WGM12) (_clockSelectBits (self (run (setPeriod P) s))) /\
  Z.land (TCCR1B (hw (run start (run (setPeriod P) (run stop s))))) 7 =
    _clockSelectBits (self (run (setPeriod P) s)) /\
  Z.testbit (TCCR1B (hw (run start (run (setPeriod P) (run stop s))))) WGM12 = true /\
  exists i, csBitsValues !! i =
    Some (Z.land (TCCR1B (hw (run start (run (setPeriod P) (run stop s))))) 7).
Proof.
  destruct (setPeriod_uniform P) as (k & v & Hk & Hv & Hall).
  rewrite !Hall.
  destruct k as [|[|[|[|[|k]]]]]; [| | | | |lia].
  - repeat split. exists 0%nat. reflexivity.
  - repeat split. exists 1%nat. reflexivity.
  - repeat split. exists 2%nat. reflexivity.
  - repeat split. exists 3%nat. reflexivity.
  - repeat split. exists 4%nat. reflexivity.
Qed.

(** X6. [start] only sets bits. A second [setPeriod]/[start] without a
    [stop] in between leaves in TCCR1B the OR of both selections, which need
    not be the second one: after the bits of prescaler 8 (period 4096) those
    of prescaler 256 (period 300000) give 6, a value of no table entry. *)
Theorem restart_without_stop (P1 P2 : Z) (s : machine) :
  Z.land (TCCR1B (hw (run start (run (setPeriod P2)
            (run start (run (setPeriod P1) (run stop s))))))) 7 =
    Z.lor (_clockSelectBits (self (run (setPeriod P1) s)))
          (_clockSelectBits (self (run (setPeriod P2) s))) /\
  Z.land (TCCR1B (hw (run start (run (setPeriod 300000)
            (run start (run (setPeriod 4096) (run stop s))))))) 7 = 6 /\
  _clockSelectBits (self (run (setPeriod 300000) s)) = 4 /\
  prescaler_of 6 = 0.
Proof.
  split; [|repeat split].
  destruct (setPeriod_uniform P1) as (k1 & v1 & Hk1 & Hv1 & Hall1).
  destruct (setPeriod_uniform P2) as (k2 & v2 & Hk2 & Hv2 & Hall2).
  rewrite !Hall2, !Hall1.
  destruct k1 as [|[|[|[|[|k1]]]]]; [| | | | |lia];
    (destruct k2 as [|[|[|[|[|k2]]]]]; [| | | | |lia]); reflexivity.
Qed.

(** X7. [stop] after [start] leaves the object and every register as
    [stop] alone does: TCCR1B holds the mode bit only, the clock-select bits
    are zero, and compare value, counter and interrupt mask are untouched. *)
Theorem stop_after_start (s : machine) :
  self (run stop (run start s)) = self s /\
  same_registers (hw (run stop (run start s))) (hw (run stop s)) /\
  TCCR1B (hw (run stop (run start s))) = _BV WGM12 /\
  Z.land (TCCR1B (hw (run stop (run start s)))) 7 = 0 /\
  TCNT1 (hw (run stop (run start s))) = TCNT1 (hw s) /\
  OCR1A (hw (run stop (run start s))) = OCR1A (hw s) /\
  TIMSK1 (hw (run stop (run start s))) = TIMSK1 (hw s).
Proof. unfold same_registers. repeat split; destruct s as [o sp m]; reflexivity. Qed.

Lemma init_inv (s : machine) :
  0 <= _clockSelectBits (self s) <= 7 -> driver_inv (run init s).
Proof.
  intros Hcs. unfold driver_inv, ctc_mode. split; [split|split].
  - reflexivity.
  - exists 0. split; [lia|reflexivity].
  - left. reflexivity.
  - exact Hcs.
Qed.

Lemma exec_inv (c : call) (s : machine) : driver_inv s -> driver_inv (exec c s).
Proof.
  intros Hinv. pose proof Hinv as Hkeep.
  unfold driver_inv, ctc_mode in Hinv.
  destruct Hinv as ((Ha & b & Hb & Hb') & Hmask & Hcs).
  destruct c as [| |P|isr| | | | |]; cbn [exec].
  - exact Hkeep.
  - apply init_inv. exact Hcs.
  - destruct (setPeriod_uniform P) as (k & v & Hk & Hv & Hall). rewrite Hall.
    unfold driver_inv, ctc_mode. split; [split|split].
    + exact Ha.
    + exists b. split; [exact Hb|exact Hb'].
    + exact Hmask.
    + cbn [self _clockSelectBits].
      destruct k as [|[|[|[|[|k]]]]]; [| | | | |lia]; vm_compute; split; discriminate.
  - unfold driver_inv, ctc_mode. rewrite attach_hw, attach_self.
    split; [split|split].
    + exact Ha.
    + exists b. split; [exact Hb|exact Hb'].
    + right. cbn. destruct Hmask as [-> | ->]; reflexivity.
    + exact Hcs.
  - unfold driver_inv, ctc_mode. rewrite detach_hw, detach_self.
    split; [split|split].
    + exact Ha.
    + exists b. split; [exact Hb|exact Hb'].
    + left. reflexivity.
    + exact Hcs.
  - destruct (lor_three_bits b (_clockSelectBits (self s)) Hb Hcs) as (Heq & Hrange & _).
    unfold driver_inv, ctc_mode. split; [split|split].
    + exact Ha.
    + exists (Z.lor b (_clockSelectBits (self s))). split; [exact Hrange|].
      change (TCCR1B (hw (run start s)))
        with (u8 (Z.lor (TCCR1B (hw s)) (_clockSelectBits (self s)))).
      rewrite Hb'. exact Heq.
    + exact Hmask.
    + exact Hcs.
  - unfold driver_inv, ctc_mode. split; [split|split].
    + exact Ha.
    + exists 0. split; [lia|reflexivity].
    + exact Hmask.
    + exact Hcs.
  - unfold driver_inv, ctc_mode. split; [split|split].
    + exact Ha.
    + exists b. split; [exact Hb|exact Hb'].
    + exact Hmask.
    + exact Hcs.
  - exact Hkeep.
Qed.

Lemma exec_all_inv (cs : list call) : forall s : machine,
  driver_inv s -> driver_inv (exec_all cs s).
Proof.
  induction cs as [|c cs IH]; intros s Hinv; [exact Hinv|].
  cbn [exec_all foldl]. fold (exec_all cs (exec c s)).
  apply IH, exec_inv, Hinv.
Qed.

(** X8. From [init] on, whatever functions of the class are called and in
    whatever order, the timer stays in CTC mode (TCCR1A = 0, TCCR1B is
    _BV(WGM12) plus clock-select bits only), TIMSK1 is 0 or exactly
    _BV(OCIE1A), so no other timer-1 interrupt is ever enabled, and
    [_clockSelectBits] stays within three bits. The object only needs to
    come with clock-select bits within 0..7, as the constructor leaves it. *)
Theorem driver_invariant (cs : list call) (s : machine) :
  0 <= _clockSelectBits (self s) <= 7 ->
  TCCR1A (hw (exec_all cs (run init s))) = 0 /\
  (exists c, 0 <= c <= 7 /\
     TCCR1B (hw (exec_all cs (run init s))) = Z.lor (_BV WGM12) c) /\
  (TIMSK1 (hw (exec_all cs (run init s))) = 0 \/
   TIMSK1 (hw (exec_all cs (run init s))) = _BV OCIE1A) /\
  0 <= _clockSelectBits (self (exec_all cs (run init s))) <= 7.
Proof.
  intros Hcs.
  destruct (exec_all_inv cs (run init s) (init_inv s Hcs)) as ((Ha & Hb) & Hmask & Hcs').
  split; [exact Ha|]. split; [exact Hb|]. split; [exact Hmask|exact Hcs'].
Qed.

(** The theorem on a freshly constructed object, through two periods and
    two starts without a stop. *)
Lemma driver_invariant_witness :
  TCCR1A (hw (exec_all [call_setPeriod 4096; call_start; call_attachInterrupt (fn 1);
                        call_setPeriod 300000; call_start] (run init power_on))) = 0 /\
  TIMSK1 (hw (exec_all [call_setPeriod 4096; call_start; call_attachInterrupt (fn 1);
                        call_setPeriod 300000; call_start] (run init power_on))) = _BV OCIE1A.
Proof.
  destruct (driver_invariant
              [call_setPeriod 4096; call_start; call_attachInterrupt (fn 1);
               call_setPeriod 300000; call_start] power_on) as (Ha & _ & Hmask & _).
  - cbn. lia.
  - split; [exact Ha|]. destruct Hmask as [H0|H2]; [|exact H2].
    vm_compute in H0. discriminate H0.
Defined.

End StartStop.

(** * The callback across other calls, and [init] *)
Section CallbackFrame.
Import AVR MiniTimer.

Lemma exec_keeps_callback (c : call) (s : machine) :
  assigns_callback c = false ->
  _isrCallback (self (exec c s)) = _isrCallback (self s).
Proof.
  destruct c as [| |P|isr| | | | |]; intros Hc; try discriminate Hc; try reflexivity.
  cbn [exec]. destruct (setPeriod_uniform P) as (k & v & _ & _ & Hall).
  rewrite Hall. reflexivity.
Qed.

Lemma exec_all_keeps_callback (cs : list call) : forall s : machine,
  Forall (fun c => assigns_callback c = false) cs ->
  _isrCallback (self (exec_all cs s)) = _isrCallback (self s).
Proof.
  induction cs as [|c cs IH]; intros s Hcs; [reflexivity|].
  apply Forall_cons in Hcs as [Hc Hcs].
  cbn [exec_all foldl]. fold (exec_all cs (exec c s)).
  rewrite IH by exact Hcs. apply exec_keeps_callback. exact Hc.
Qed.

(** X9. Only [attachInterrupt] and [detachInterrupt] assign the callback.
    After [attachInterrupt isr], any sequence of the other calls ([init],
    [setPeriod], [start], [stop], [reset], the getters) leaves [getCallback]
    returning [isr], and the interrupt routine run on that object calls
    [isr]. *)
Theorem callback_survives (cs : list call) (isr : fnptr) (s : machine) :
  Forall (fun c => assigns_callback c = false) cs ->
  result getCallback (exec_all cs (run (attachInterrupt isr) s)) = isr /\
  ISR_TIMER1_COMPA (Some (self (exec_all cs (run (attachInterrupt isr) s))))
                   (exec_all cs (run (attachInterrupt isr) s)) = Some isr.
Proof.
  intros Hcs.
  pose proof (exec_all_keeps_callback cs (run (attachInterrupt isr) s) Hcs) as Hkeep.
  rewrite attach_self in Hkeep. cbn [_isrCallback] in Hkeep.
  split.
  - unfold result, getCallback. cbn [fst]. exact Hkeep.
  - unfold ISR_TIMER1_COMPA. cbn [mbind option_bind].
    unfold result, getCallback. cbn [fst self]. rewrite Hkeep. reflexivity.
Qed.

(** The theorem through a re-initialisation and a new period. *)
Lemma callback_survives_witness :
  result getCallback
    (exec_all [call_init; call_setPeriod 1000; call_start; call_reset; call_stop]
              (run (attachInterrupt (fn 7)) power_on)) = fn 7.
Proof.
  apply (callback_survives
           [call_init; call_setPeriod 1000; call_start; call_reset; call_stop]
           (fn 7) power_on).
  repeat constructor.
Defined.

(** X10. [init] resets registers, not the configuration. After
    [setPeriod P], [init] leaves the timer stopped in CTC mode with TIMSK1
    and TCNT1 zero and global interrupts enabled whatever they were, but
    the object and OCR1A are as [setPeriod P] left them; a [start] right
    after runs the timer with the clock-select bits of P again. *)
Theorem init_keeps_configuration (P : Z) (s : machine) :
  self (run init (run (setPeriod P) s)) = self (run (setPeriod P) s) /\
  OCR1A (hw (run init (run (setPeriod P) s))) = OCR1A (hw (run (setPeriod P) s)) /\
  TCCR1A (hw (run init (run (setPeriod P) s))) = 0 /\
  TCCR1B (hw (run init (run (setPeriod P) s))) = _BV WGM12 /\
  TIMSK1 (hw (run init (run (setPeriod P) s))) = 0 /\
  TCNT1 (hw (run init (run (setPeriod P) s))) = 0 /\
  SREG_I (hw (run init (run (setPeriod P) s))) = true /\
  TCCR1B (hw (run start (run init (run (setPeriod P) s)))) =
    Z.lor (_BV WGM12) (_clockSelectBits (self (run (setPeriod P) s))).
Proof.
  destruct (setPeriod_uniform P) as (k & v & Hk & Hv & Hall).
  rewrite !Hall.
  destruct k as [|[|[|[|[|k]]]]]; [| | | | |lia]; repeat split.
Qed.

End CallbackFrame.

(** * Filling the task table *)
Section FillingTheTable.
Import Sched.

Lemma addTask_free (task : Taskptr) (s : Scheduler) :
  Z.of_nat (length (taskList s)) = MAX_TASKS ->
  0 <= nTasks s < MAX_TASKS - 1 ->
  addTask task s =
    Some (true, Build (basePeriod s) (nTasks s + 1)
                      (<[Z.to_nat (nTasks s) := task]> (taskList s)) (timer s)).
Proof.
  unfold MAX_TASKS. intros Hlen Hn. unfold addTask, array_store, MAX_TASKS.
  assert (Hlt : (nTasks s <? 10 - 1) = true) by (apply Z.ltb_lt; lia).
  assert (Hin : ((0 <=? nTasks s) && (nTasks s <? Z.of_nat (length (taskList s)))) = true).
  { apply andb_true_iff. split; [apply Z.leb_le|apply Z.ltb_lt]; lia. }
  rewrite Hlt, Hin. reflexivity.
Qed.

Lemma addTask_full (task : Taskptr) (s : Scheduler) :
  MAX_TASKS - 1 <= nTasks s -> addTask task s = Some (false, s).
Proof.
  unfold MAX_TASKS. intros Hn. unfold addTask, MAX_TASKS.
  assert (Hge : (nTasks s <? 10 - 1) = false) by (apply Z.ltb_ge; lia).
  rewrite Hge. reflexivity.
Qed.

Lemma registered_after_store (task : Taskptr) (s : Scheduler) :
  Z.of_nat (length (taskList s)) = MAX_TASKS ->
  0 <= nTasks s < MAX_TASKS - 1 ->
  registered (Build (basePeriod s) (nTasks s + 1)
                    (<[Z.to_nat (nTasks s) := task]> (taskList s)) (timer s)) =
  registered s ++ [task].
Proof.
  unfold MAX_TASKS. intros Hlen Hn. unfold registered. cbn [nTasks taskList].
  replace (Z.to_nat (nTasks s + 1)) with (S (Z.to_nat (nTasks s))) by lia.
  erewrite take_S_r by (apply list_lookup_insert_eq; lia).
  rewrite take_insert_ge by lia. reflexivity.
Qed.

(** A run of [addTask] calls, by induction on the tasks passed. *)
Lemma addTasks_run (tasks : list Taskptr) : forall s : Scheduler,
  wf s ->
  exists s',
    addTasks tasks s =
      Some (replicate (min (length tasks) (9 - Z.to_nat (nTasks s))) true ++
            replicate (length tasks - (9 - Z.to_nat (nTasks s))) false, s') /\
    registered s' = take 9 (registered s ++ tasks) /\
    wf s' /\ basePeriod s' = basePeriod s /\ timer s' = timer s.
Proof.
  induction tasks as [|task rest IH]; intros s Hwf.
  - exists s. cbn [addTasks length]. rewrite Nat.min_0_l. cbn [replicate app Nat.sub].
    rewrite app_nil_r. rewrite take_ge by (rewrite registered_length by exact Hwf;
      destruct Hwf as [_ Hn]; unfold MAX_TASKS in Hn; lia).
    repeat split; try apply Hwf.
  - pose proof Hwf as [Hlen Hn]. unfold MAX_TASKS in Hlen, Hn.
    pose proof (registered_length s Hwf) as Hreg.
    cbn [addTasks].
    destruct (Z.ltb_spec (nTasks s) 9) as [Hfree|Hfull].
    + rewrite addTask_free by (unfold MAX_TASKS; lia).
      cbn [mbind option_bind snd fst].
      set (s1 := Build (basePeriod s) (nTasks s + 1)
                       (<[Z.to_nat (nTasks s) := task]> (taskList s)) (timer s)).
      assert (Hwf1 : wf s1).
      { unfold wf, MAX_TASKS. cbn. rewrite length_insert. lia. }
      destruct (IH s1 Hwf1) as (s' & Hrun & Hregs & Hwf' & Hbp & Htm).
      exists s'. rewrite Hrun. cbn [mbind option_bind snd fst].
      split; [|split; [|split; [exact Hwf'|split; [exact Hbp|exact Htm]]]].
      * f_equal. f_equal. cbn [nTasks s1 length].
        replace (9 - Z.to_nat (nTasks s))%nat
          with (S (9 - Z.to_nat (nTasks s + 1)))%nat by lia.
        rewrite <- Nat.succ_min_distr. reflexivity.
      * rewrite Hregs. unfold s1.
        rewrite registered_after_store by (unfold MAX_TASKS; lia).
        rewrite <- app_assoc. reflexivity.
    + rewrite addTask_full by (unfold MAX_TASKS; lia).
      cbn [mbind option_bind snd fst].
      destruct (IH s Hwf) as (s' & Hrun & Hregs & Hwf' & Hbp & Htm).
      exists s'. rewrite Hrun. cbn [mbind option_bind snd fst].
      split; [|split; [|split; [exact Hwf'|split; [exact Hbp|exact Htm]]]].
      * f_equal. f_equal.
        replace (9 - Z.to_nat (nTasks s))%nat with 0%nat by lia.
        rewrite !Nat.min_0_r, !Nat.sub_0_r. reflexivity.
      * rewrite Hregs. rewrite !take_app_le by lia. reflexivity.
Qed.

(** X11. A run of [addTask] calls on a well-formed scheduler holding [n]
    tasks: the first [9 - n] calls return true, every later call returns
    false, and the registered sequence ends up as the old one followed by
    the new tasks in call order, cut at 9 entries. Nothing checks for
    duplicates: a task passed twice is registered twice. Base period and
    timer are untouched and the scheduler stays well-formed. *)
Theorem addTasks_fill_then_reject (tasks : list Taskptr) (s : Scheduler) :
  wf s ->
  exists s',
    addTasks tasks s =
      Some (replicate (min (length tasks) (9 - Z.to_nat (nTasks s))) true ++
            replicate (length tasks - (9 - Z.to_nat (nTasks s))) false, s') /\
    registered s' = take 9 (registered s ++ tasks) /\
    wf s' /\ basePeriod s' = basePeriod s /\ timer s' = timer s.
Proof. apply addTasks_run. Qed.

(** The theorem on a table already holding 8 tasks, adding the task 30
    twice and then 31: the first call succeeds, the next two are rejected. *)
Lemma addTasks_fill_then_reject_witness :
  exists s',
    addTasks [30; 30; 31]%N (Build 1000 8 [11; 12; 13; 14; 15; 16; 17; 18; 0; 0]%N 0%N) =
      Some ([true; false; false], s') /\
    registered s' = [11; 12; 13; 14; 15; 16; 17; 18; 30]%N.
Proof.
  destruct (addTasks_fill_then_reject [30; 30; 31]%N
              (Build 1000 8 [11; 12; 13; 14; 15; 16; 17; 18; 0; 0]%N 0%N))
    as (s' & Hrun & Hreg & _).
  - split; [reflexivity|cbn; unfold MAX_TASKS; lia].
  - exists s'. split; [exact Hrun|exact Hreg].
Defined.

End FillingTheTable.

(** * Passes of the scheduler *)
Section Passes.
Import Sched.
Context {World : Type} `{Collaborators World}.

(** [schedule] on a well-formed scheduler: it returns, having waited and
    made one pass over the registered tasks. *)
Lemma schedule_calls (s : Scheduler) (e : env World) :
  wf s ->
  exists (e' : env World) (acts : list action),
    schedule s e = Some e' /\
    calls e' = calls e ++ WaitForNextTick :: acts /\
    pass (basePeriod s) (registered s)
         (Timer_waitForNextTick (timer s) (world e)) acts (world e').
Proof.
  intros [Hlen Hn]. unfold MAX_TASKS in *.
  destruct (schedule_for_pass s (Z.to_nat (nTasks s)) 0
              (Env (Timer_waitForNextTick (timer s) (world e)) (calls e ++ [WaitForNextTick])))
    as (e' & acts & Hrun & Hcalls & Hpass); [lia|].
  exists e', acts. cbn [calls world drop] in *.
  split; [exact Hrun|]. split; [|exact Hpass].
  rewrite Hcalls, <- app_assoc. reflexivity.
Qed.

Lemma pass_ticked (bp : Z) (tasks : list Taskptr) (w w' : World) (acts : list action) :
  pass bp tasks w acts w' ->
  ticked acts = answered_due acts /\ ticked acts `sublist_of` tasks /\ waits acts = 0%nat.
Proof.
  induction 1 as [w|task rest w w1 acts w2 Hdue Hrest (IH1 & IH2 & IH3)
                 |task rest w w1 acts w2 Hidle Hrest (IH1 & IH2 & IH3)].
  - repeat split. constructor.
  - cbn. split; [f_equal; exact IH1|]. split; [|exact IH3].
    apply sublist_skip. exact IH2.
  - cbn. split; [exact IH1|]. split; [|exact IH3].
    apply sublist_cons. exact IH2.
Qed.

(** X12. [init] empties the table whatever it held: on a table of
    [MAX_TASKS] slots the scheduler is well-formed afterwards with the new
    base period and no task registered, the timer has been created and set
    up with that base period, a [schedule] right after only waits for the
    tick, and a run of [addTask] calls registers the first 9 tasks passed. *)
Theorem init_discards_registrations (bp : Z) (tasks : list Taskptr)
    (s : Scheduler) (w : World) (e : env World) :
  Z.of_nat (length (taskList s)) = MAX_TASKS ->
  wf (init bp s w).1 /\
  registered (init bp s w).1 = [] /\
  basePeriod (init bp s w).1 = bp /\
  timer (init bp s w).1 = (Timer_new w).1 /\
  (init bp s w).2 = Timer_setupPeriod (Timer_new w).1 bp (Timer_new w).2 /\
  schedule (init bp s w).1 e =
    Some (Env (Timer_waitForNextTick (Timer_new w).1 (world e))
              (calls e ++ [WaitForNextTick])) /\
  exists s',
    addTasks tasks (init bp s w).1 =
      Some (replicate (min (length tasks) 9) true ++
            replicate (length tasks - 9) false, s') /\
    registered s' = take 9 tasks.
Proof.
  intros Hlen.
  destruct (init_wf bp s w Hlen) as [Hwf Hreg].
  split; [exact Hwf|]. split; [exact Hreg|].
  assert (Hn : nTasks (init bp s w).1 = 0).
  { unfold init. destruct (Timer_new w). reflexivity. }
  split; [unfold init; destruct (Timer_new w); reflexivity|].
  split; [unfold init; destruct (Timer_new w); reflexivity|].
  split; [unfold init; destruct (Timer_new w); reflexivity|].
  split; [unfold init, schedule; destruct (Timer_new w); reflexivity|].
  destruct (addTasks_run tasks _ Hwf) as (s' & Hrun & Hregs & _).
  exists s'. rewrite Hn in Hrun. rewrite Hreg in Hregs.
  split; [exact Hrun|exact Hregs].
Qed.

(** X13. A pass ticks exactly the tasks that answered "due", in table
    order and each table entry at most once: the ticked tasks are a
    subsequence of the registered ones, so there are at most [nTasks] ticks
    per call of [schedule], and exactly one wait. *)
Theorem schedule_ticks_due_tasks (s : Scheduler) (e : env World) :
  wf s ->
  exists (e' : env World) (acts : list action),
    schedule s e = Some e' /\
    calls e' = calls e ++ acts /\
    ticked acts = answered_due acts /\
    ticked acts `sublist_of` registered s /\
    (length (ticked acts) <= Z.to_nat (nTasks s))%nat /\
    waits acts = 1%nat.
Proof.
  intros Hwf.
  destruct (schedule_calls s e Hwf) as (e' & acts & Hrun & Hcalls & Hpass).
  destruct (pass_ticked _ _ _ _ _ Hpass) as (Hdue & Hsub & Hwaits).
  exists e', (WaitForNextTick :: acts).
  split; [exact Hrun|]. split; [exact Hcalls|].
  split; [exact Hdue|]. split; [exact Hsub|]. split.
  - rewrite <- (registered_length s Hwf). apply sublist_length. exact Hsub.
  - unfold waits in *. cbn. rewrite Hwaits. reflexivity.
Qed.

Lemma asked_app (a b : list action) : asked (a ++ b) = asked a ++ asked b.
Proof. unfold asked. apply omap_app. Qed.

Lemma ticked_app (a b : list action) : ticked (a ++ b) = ticked a ++ ticked b.
Proof. unfold ticked. apply omap_app. Qed.

Lemma waits_app (a b : list action) : waits (a ++ b) = (waits a + waits b)%nat.
Proof. unfold waits. rewrite omap_app, List.length_app. reflexivity. Qed.

(** X14. [n] calls of [schedule] in a row on a well-formed scheduler all
    return; together they wait [n] times, ask every registered task exactly
    [n] times, pass by pass in registration order, and tick at most
    [n * nTasks] times. *)
Theorem schedule_n_passes (n : nat) (s : Scheduler) : forall e : env World,
  wf s ->
  exists (e' : env World) (acts : list action),
    schedule_n n s e = Some e' /\
    calls e' = calls e ++ acts /\
    waits acts = n /\
    asked acts = concat (replicate n (registered s)) /\
    (length (ticked acts) <= n * Z.to_nat (nTasks s))%nat.
Proof.
  induction n as [|n IH]; intros e Hwf.
  - exists e, []. cbn. rewrite app_nil_r. repeat split. lia.
  - destruct (schedule_calls s e Hwf) as (e1 & acts1 & Hrun1 & Hcalls1 & Hpass).
    destruct (pass_ticked _ _ _ _ _ Hpass) as (_ & Hsub & Hwaits).
    pose proof (pass_asked _ _ _ _ _ Hpass) as Hasked.
    apply sublist_length in Hsub. rewrite (registered_length s Hwf) in Hsub.
    destruct (IH e1 Hwf) as (e' & acts & Hrun & Hcalls & Hw & Ha & Ht).
    exists e', ((WaitForNextTick :: acts1) ++ acts).
    cbn [schedule_n]. rewrite Hrun1. cbn [mbind option_bind].
    split; [exact Hrun|]. split.
    + rewrite Hcalls, Hcalls1, <- app_assoc. reflexivity.
    + rewrite waits_app, asked_app, ticked_app, List.length_app.
      split; [|split].
      * rewrite Hw. unfold waits in *. cbn. rewrite Hwaits. reflexivity.
      * cbn [replicate concat]. rewrite Ha.
        change (asked (WaitForNextTick :: acts1)) with (asked acts1).
        rewrite Hasked. reflexivity.
      * change (ticked (WaitForNextTick :: acts1)) with (ticked acts1).
        rewrite Nat.mul_succ_l. lia.
Qed.

End Passes.

Section PassesExample.
Import Sched.

Lemma two_tasks_wf : wf two_tasks.
Proof. split; [reflexivity|cbn; unfold MAX_TASKS; lia]. Defined.

(** The theorem on a scheduler that already holds two tasks: after [init]
    with base period 500 nothing is registered, and adding 12 tasks
    registers the first 9. *)
Lemma init_discards_registrations_witness :
  registered (@init _ periodic_tasks 500 two_tasks ∅).1 = [] /\
  exists s',
    addTasks [1; 2; 3; 4; 5; 6; 7; 8; 9; 10; 11; 12]%N
             (@init _ periodic_tasks 500 two_tasks ∅).1 =
      Some ([true; true; true; true; true; true; true; true; true; false; false; false], s') /\
    registered s' = [1; 2; 3; 4; 5; 6; 7; 8; 9]%N.
Proof.
  destruct (@init_discards_registrations _ periodic_tasks 500
              [1; 2; 3; 4; 5; 6; 7; 8; 9; 10; 11; 12]%N two_tasks ∅ two_tasks_world)
    as (_ & Hreg & _ & _ & _ & _ & Hadd).
  - reflexivity.
  - split; [exact Hreg|exact Hadd].
Defined.

(** The theorem on the two periodic tasks: in the first pass only task 11
    is due, and only it is ticked. *)
Lemma schedule_ticks_due_tasks_witness :
  exists e' acts,
    @schedule _ periodic_tasks two_tasks two_tasks_world = Some e' /\
    calls e' = acts /\
    ticked acts = answered_due acts /\
    ticked acts `sublist_of` [11; 12]%N /\
    ticked acts = [11%N].
Proof.
  destruct (@schedule_ticks_due_tasks _ periodic_tasks two_tasks two_tasks_world two_tasks_wf)
    as (e' & acts & Hrun & Hcalls & Hdue & Hsub & _).
  exists e', acts. split; [exact Hrun|]. split; [exact Hcalls|].
  split; [exact Hdue|]. split; [exact Hsub|].
  vm_compute in Hrun. injection Hrun as <-. cbn in Hcalls. subst acts. reflexivity.
Defined.

(** The theorem over three passes of the two periodic tasks: three waits,
    each task asked three times. *)
Lemma schedule_n_passes_witness :
  exists e' acts,
    @schedule_n _ periodic_tasks 3 two_tasks two_tasks_world = Some e' /\
    calls e' = acts /\
    waits acts = 3%nat /\
    asked acts = [11; 12; 11; 12; 11; 12]%N.
Proof.
  destruct (@schedule_n_passes _ periodic_tasks 3 two_tasks two_tasks_world two_tasks_wf)
    as (e' & acts & Hrun & Hcalls & Hwaits & Hasked & _).
  exists e', acts. split; [exact Hrun|]. split; [exact Hcalls|].
  split; [exact Hwaits|exact Hasked].
Defined.

End PassesExample.
